(** * TraceCycle: the WasteTrace ledger and its client-side auto-log bridge

    A shallow embedding of
    - [blockchain/contracts/WasteTrace.sol] (module [WasteTrace]): the record
      store, its three mutating entry points, the read accessor and the
      emitted events;
    - [frontend/src/context/Web3Context.jsx] and the dashboard component
      (module [Client]): the guarded [createWaste] wrapper and the WebSocket
      handler that turns detection events into ledger writes.

    Solidity values are modelled as the contract has them: [uint256] and
    [address] are integers ([Z]), [count++] is the checked increment of
    Solidity 0.8 (it panics instead of wrapping), a [mapping] is a finite map
    read with the all-zero default, [require] aborts the call and a reverted
    call leaves storage and the event log as they were. *)

From Stdlib Require Import ZArith List String Bool Lia.
From stdpp Require Import base option gmap strings.
Import ListNotations.

Local Open Scope string_scope.
Local Open Scope list_scope.
Local Open Scope Z_scope.

(* ===================================================================== *)
(** * The contract *)
(* ===================================================================== *)

Module WasteTrace.

(** [type(uint256).max] *)
Definition max_uint256 : Z := 2 ^ 256 - 1.

(** A Solidity [address]; [0] is [address(0)], the default value. *)
Definition address : Type := Z.

(** [struct Waste] *)
Record Waste : Type := mkWaste {
  id : Z;
  wasteType : string;
  status : string;
  owner : address;
  timestamp : Z
}.

(** The value every unwritten slot of a [mapping(uint256 => Waste)] reads as. *)
Definition zero_waste : Waste := mkWaste 0 "" "" 0 0.

(** [wastes[_id].status = _status] and [wastes[_id].owner = _to] write one
    member of the struct and keep the others. *)
Definition set_status (w : Waste) (_status : string) : Waste :=
  mkWaste (id w) (wasteType w) _status (owner w) (timestamp w).

Definition set_owner (w : Waste) (_to : address) : Waste :=
  mkWaste (id w) (wasteType w) (status w) _to (timestamp w).

(** The three [event] declarations. *)
Inductive Event : Type :=
| WasteCreated (id : Z) (owner : address)
| StatusUpdated (id : Z) (status : string)
| WasteTransferred (id : Z) (from to : address).

(** Contract storage ([wastes], [count]) together with the log of the events
    emitted so far. *)
Record State : Type := mkState {
  wastes : gmap Z Waste;
  count : Z;
  logs : list Event
}.

(** The freshly deployed contract. *)
Definition init : State := mkState ∅ 0 [].

(** The part of the transaction context the contract reads. *)
Record Env : Type := mkEnv {
  msg_sender : address;
  block_timestamp : Z
}.

(** Why a call aborted: a failed [require] with its message, or a [Panic]
    (code [0x11] is arithmetic overflow). *)
Inductive Failure : Type :=
| Error (reason : string)
| Panic (code : Z).

Inductive Outcome : Type :=
| Success (s : State)
| Reverted (f : Failure).

(** [wastes[k]]: a mapping read, total, with the zero default. *)
Definition read (s : State) (k : Z) : Waste :=
  default zero_waste (wastes s !! k).

(** [require(cond, reason); rest] *)
Definition require (cond : bool) (reason : string) (rest : Outcome) : Outcome :=
  if cond then rest else Reverted (Error reason).

(** [function createWaste(string memory _type) public] *)
Definition createWaste (_type : string) (env : Env) (s : State) : Outcome :=
  if max_uint256 <=? count s then Reverted (Panic 17)
  else
    let count' := count s + 1 in
    Success
      (mkState
         (<[count' := mkWaste count' _type "Generated" (msg_sender env)
                        (block_timestamp env)]> (wastes s))
         count'
         (logs s ++ [WasteCreated count' (msg_sender env)])).

(** [function updateStatus(uint256 _id, string memory _status) public] *)
Definition updateStatus (_id : Z) (_status : string) (env : Env) (s : State)
  : Outcome :=
  require (negb (id (read s _id) =? 0)) "Waste not found"
    (require (owner (read s _id) =? msg_sender env) "Not owner"
       (Success
          (mkState
             (<[_id := set_status (read s _id) _status]> (wastes s))
             (count s)
             (logs s ++ [StatusUpdated _id _status])))).

(** [function transferWaste(uint256 _id, address _to) public] *)
Definition transferWaste (_id : Z) (_to : address) (env : Env) (s : State)
  : Outcome :=
  require (owner (read s _id) =? msg_sender env) "Not owner"
    (Success
       (mkState
          (<[_id := set_owner (read s _id) _to]> (wastes s))
          (count s)
          (logs s ++ [WasteTransferred _id (msg_sender env) _to]))).

(** [function getWaste(uint256 _id) public view returns (Waste memory)] *)
Definition getWaste (_id : Z) (s : State) : Waste := read s _id.

(** The existence test of [updateStatus], [wastes[_id].id != 0]: a returned
    record whose [id] is [0] is the "not found" answer. *)
Definition found (w : Waste) : bool := negb (id w =? 0).

(** ** Transactions *)

Inductive Call : Type :=
| CreateWaste (_type : string)
| UpdateStatus (_id : Z) (_status : string)
| TransferWaste (_id : Z) (_to : address).

Record Tx : Type := mkTx {
  tx_env : Env;
  tx_call : Call
}.

Definition call (tx : Tx) (s : State) : Outcome :=
  match tx_call tx with
  | CreateWaste _type => createWaste _type (tx_env tx) s
  | UpdateStatus _id _status => updateStatus _id _status (tx_env tx) s
  | TransferWaste _id _to => transferWaste _id _to (tx_env tx) s
  end.

(** The state after a transaction: a reverted call changes nothing. *)
Definition exec (tx : Tx) (s : State) : State :=
  match call tx s with
  | Success s' => s'
  | Reverted _ => s
  end.

Definition succeeds (tx : Tx) (s : State) : bool :=
  match call tx s with
  | Success _ => true
  | Reverted _ => false
  end.

(** Transactions are applied one after the other, in the order given. *)
Fixpoint run (txs : list Tx) (s : State) : State :=
  match txs with
  | [] => s
  | tx :: rest => run rest (exec tx s)
  end.

(** The ids handed out along a run: [createWaste] returns nothing, the id of
    the new record is the value of [count] it leaves behind (the key it
    wrote, the [id] member it stored and the id of its event). *)
Fixpoint assigned_ids (txs : list Tx) (s : State) : list Z :=
  match txs with
  | [] => []
  | tx :: rest =>
      match tx_call tx, call tx s with
      | CreateWaste _, Success s' => count s' :: assigned_ids rest s'
      | _, _ => assigned_ids rest (exec tx s)
      end
  end.

(** How the record store's contract names the two [require] failures. *)
Inductive StoreError : Type := NotFound | Unauthorized.

Definition store_error (f : Failure) : option StoreError :=
  match f with
  | Error reason =>
      if String.eqb reason "Waste not found" then Some NotFound
      else if String.eqb reason "Not owner" then Some Unauthorized
      else None
  | Panic _ => None
  end.

(** The change notification a call is to produce when it is accepted in
    state [s]: its kind, the record id and the payload. *)
Definition notification (tx : Tx) (s : State) : Event :=
  match tx_call tx with
  | CreateWaste _ => WasteCreated (count s + 1) (msg_sender (tx_env tx))
  | UpdateStatus _id _status => StatusUpdated _id _status
  | TransferWaste _id _to => WasteTransferred _id (msg_sender (tx_env tx)) _to
  end.

(** One notification per accepted call, in the order of acceptance, and none
    for a call that failed. *)
Fixpoint notifications (txs : list Tx) (s : State) : list Event :=
  match txs with
  | [] => []
  | tx :: rest =>
      (if succeeds tx s then [notification tx s] else [])
        ++ notifications rest (exec tx s)
  end.

(** The members of a record that no entry point assigns after creation. *)
Definition fixed_part (w : Waste) : Z * string * Z :=
  (id w, wasteType w, timestamp w).

Definition is_create (tx : Tx) : bool :=
  match tx_call tx with
  | CreateWaste _ => true
  | _ => false
  end.

(** ** Invariants of the store *)

(** The keys [1 .. count] hold the records created so far, each under its
    own [id]; every other key reads as a record with [id] zero. *)
Definition consistent (s : State) : Prop :=
  0 ≤ count s ≤ max_uint256 ∧
  (∀ k, 1 ≤ k ≤ count s → id (read s k) = k) ∧
  (∀ k, ¬ (1 ≤ k ≤ count s) → id (read s k) = 0).

(** Nothing at all was written outside [1 .. count]. *)
Definition clean (s : State) : Prop :=
  ∀ k, ¬ (1 ≤ k ≤ count s) → read s k = zero_waste.

(** A transaction sent by an account or a contract other than
    [address(0)], the value an unwritten [owner] reads as. *)
Definition nonzero_sender (tx : Tx) : Prop := msg_sender (tx_env tx) ≠ 0.

(** ** Sample accounts and transactions *)

Definition alice : address := 10.
Definition bob : address := 11.
Definition carol : address := 12.

Definition by_ (sender : address) (now : Z) (c : Call) : Tx :=
  mkTx (mkEnv sender now) c.

(** Alice creates a record, hands it to Bob, Bob relabels it, and Alice
    tries to relabel it afterwards. *)
Definition sample_txs : list Tx :=
  [ by_ alice 1000 (CreateWaste "Plastic");
    by_ alice 1001 (TransferWaste 1 bob);
    by_ bob 1002 (UpdateStatus 1 "Collected");
    by_ alice 1003 (UpdateStatus 1 "Disposed") ].

Definition sample_creates : list Tx :=
  [ by_ alice 1000 (CreateWaste "Plastic");
    by_ bob 1001 (CreateWaste "E-Waste");
    by_ alice 1002 (CreateWaste "Plastic") ].

(** ** What the event log tells a listener *)

(** The ids of the [WasteCreated] events of a log, oldest first. *)
Fixpoint created_ids (log : list Event) : list Z :=
  match log with
  | [] => []
  | WasteCreated i _ :: rest => i :: created_ids rest
  | _ :: rest => created_ids rest
  end.

(** A listener's view of a key, built from the events alone: the status and
    the owner last announced for it. *)
Definition View : Type := Z → string * address.

Definition no_view : View := λ _, ("", 0).

Definition apply_event (v : View) (e : Event) : View :=
  match e with
  | WasteCreated i o => λ k, if k =? i then ("Generated", o) else v k
  | StatusUpdated i st => λ k, if k =? i then (st, snd (v k)) else v k
  | WasteTransferred i _ to => λ k, if k =? i then (fst (v k), to) else v k
  end.

Definition replay (log : list Event) : View := fold_left apply_event log no_view.

(** A state in which [count] has reached [type(uint256).max]. *)
Definition full : State := mkState ∅ max_uint256 [].

(** The record a call names by its [_id] argument; a creation names none. *)
Definition target (tx : Tx) : option Z :=
  match tx_call tx with
  | CreateWaste _ => None
  | UpdateStatus _id _ => Some _id
  | TransferWaste _id _ => Some _id
  end.

(** ** The ids a run hands out *)

(** The events a call appended: the log after it without the log before. *)
Definition emitted (s s' : State) : list Event :=
  drop (length (logs s)) (logs s').

(** The ids handed out along a run, as they can be observed: for every
    accepted [createWaste], in submission order, the ids of the
    [WasteCreated] events that the call emitted. *)
Fixpoint issued_ids (txs : list Tx) (s : State) : list Z :=
  match txs with
  | [] => []
  | tx :: rest =>
      match tx_call tx, call tx s with
      | CreateWaste _, Success s' =>
          created_ids (emitted s s') ++ issued_ids rest s'
      | _, _ => issued_ids rest (exec tx s)
      end
  end.

(** The number of creations of a run that were accepted. *)
Fixpoint accepted_creates (txs : list Tx) (s : State) : nat :=
  match txs with
  | [] => 0
  | tx :: rest =>
      ((if is_create tx && succeeds tx s then 1 else 0)
       + accepted_creates rest (exec tx s))%nat
  end.

End WasteTrace.

(* ===================================================================== *)
(** * The client: wallet context and auto-log bridge *)
(* ===================================================================== *)

Module Client.

(** What a run of client code does that can be seen from outside, in the
    order in which it happens. [CreateWasteCall] marks a call of the
    context's [createWaste] (the ledger write surface the dashboard uses),
    [ContractCreateWaste] the transaction [contract.createWaste(wasteType)]
    it sends. *)
Inductive Step : Type :=
| ConsoleLog (args : list string)
| ConsoleError (args : list string)
| Alert (text : string)
| CreateWasteCall (wasteType : string)
| ContractCreateWaste (wasteType : string).

(** How an [async] function ends: its promise is fulfilled, with a value or
    with [undefined], or rejected with an error. *)
Inductive Settled : Type :=
| Fulfilled (value : option string)
| Rejected (error : string).

(** The ethers contract object, seen from the client: sending
    [createWaste] and waiting for the receipt gives the transaction or
    throws. *)
Inductive TxResult : Type :=
| Mined (tx : string)
| Failed (error : string).

Record Contract : Type := mkContract {
  contract_createWaste : string -> TxResult
}.

(** The state of [Web3Provider] the write path reads: [currentAccount]
    (the empty string when no account is bound) and [contract] ([null]
    until [initializeContract] has set it). *)
Record Web3 : Type := mkWeb3 {
  currentAccount : string;
  contract : option Contract
}.

(** [useState("")], [useState(null)] *)
Definition initial : Web3 := mkWeb3 "" None.

(** [handleAccountsChanged(accounts)] *)
Definition handleAccountsChanged (accounts : list string) (w : Web3) : Web3 :=
  match accounts with
  | account :: _ => mkWeb3 account (contract w)
  | [] => mkWeb3 "" None
  end.

(** [!currentAccount] on a string: true exactly for the empty string. *)
Definition falsy (s : string) : bool := String.eqb s "".

(** [const createWaste = async (wasteType) => ...] of the context. *)
Definition createWaste (w : Web3) (wasteType : string) : Settled * list Step :=
  match contract w with
  | None => (Fulfilled None, [])
  | Some c =>
      match contract_createWaste c wasteType with
      | Mined tx =>
          (Fulfilled (Some tx),
           [ConsoleLog ["Creating waste:"; wasteType];
            ContractCreateWaste wasteType;
            ConsoleLog ["Waste created:"; tx]])
      | Failed error =>
          (Rejected error,
           [ConsoleLog ["Creating waste:"; wasteType];
            ContractCreateWaste wasteType;
            ConsoleError ["Error creating waste:"; error]])
      end
  end.

(** [handleCreateMockWaste] of the dashboard. *)
Definition handleCreateMockWaste (w : Web3) : list Step :=
  if falsy (currentAccount w) then []
  else
    let '(settled, steps) := createWaste w "Plastic Bottle" in
    CreateWasteCall "Plastic Bottle" :: steps ++
      match settled with
      | Fulfilled _ => [Alert "Waste created on Blockchain!"]
      | Rejected error =>
          [ConsoleError ["Error creating waste"; error];
           Alert "Error creating waste"]
      end.

(** [handleAutoCreateWaste(wasteType)] of the dashboard. The steps of one
    call are listed together; the [await]s let the later steps of
    different calls interleave, the calls themselves are made in order. *)
Definition handleAutoCreateWaste (w : Web3) (wasteType : string) : list Step :=
  if falsy (currentAccount w) then []
  else
    let '(settled, steps) := createWaste w wasteType in
    ConsoleLog [String.append "Auto-logging waste: " wasteType]
      :: CreateWasteCall wasteType :: steps ++
      match settled with
      | Fulfilled _ => []
      | Rejected error => [ConsoleError ["Auto-log error:"; error]]
      end.

(** A detection event as the handler reads it. [event_type] is the tag it
    compares with its two literals (an event without a string tag behaves
    as one with an unknown tag); [class_name] is [None] when the member is
    missing or [null], and a string otherwise. *)
Record DetectionEvent : Type := mkEvent {
  event_type : string;
  class_name : option string;
  event_timestamp : string
}.

(** A parsed WebSocket message. *)
Record Message : Type := mkMessage {
  message_type : string;
  events : option (list DetectionEvent)
}.

(** The dashboard state the handler uses. *)
Record Dashboard : Type := mkDashboard {
  autoLog : bool;
  logs : list DetectionEvent
}.

(** [e.event_type === 'waste_detected' || e.event_type === 'waste_classified'] *)
Definition recognized (e : DetectionEvent) : bool :=
  String.eqb (event_type e) "waste_detected"
  || String.eqb (event_type e) "waste_classified".

(** [e.class_name || "Unknown Waste"]: the default replaces every falsy
    value, the empty string as well as a missing member. *)
Definition wasteTypeOf (e : DetectionEvent) : string :=
  match class_name e with
  | Some c => if falsy c then "Unknown Waste" else c
  | None => "Unknown Waste"
  end.

(** The body of [newEvents.forEach(e => ...)]. *)
Definition autoLogEvent (w : Web3) (e : DetectionEvent) : list Step :=
  if recognized e then handleAutoCreateWaste w (wasteTypeOf e) else [].

(** [({ ...e, timestamp: new Date().toISOString() })] *)
Definition stamp (now : string) (e : DetectionEvent) : DetectionEvent :=
  mkEvent (event_type e) (class_name e) now.

(** [ws.onmessage] on a message that parsed and whose events are all
    copied at the time [now]; [handleFrame] below is the handler with its
    [catch] and a clock read per event. *)
Definition onmessage (d : Dashboard) (w : Web3) (now : string) (data : Message)
  : Dashboard * list Step :=
  match String.eqb (message_type data) "event", events data with
  | true, Some es =>
      let newEvents := map (stamp now) es in
      (mkDashboard (autoLog d) (firstn 50 (newEvents ++ logs d)),
       if autoLog d then flat_map (autoLogEvent w) newEvents else [])
  | _, _ => (d, [])
  end.

(** The item types of the [createWaste] calls made, in order. *)
Fixpoint createCalls (steps : list Step) : list string :=
  match steps with
  | [] => []
  | CreateWasteCall wasteType :: rest => wasteType :: createCalls rest
  | _ :: rest => createCalls rest
  end.

(** The bridge on one event: enabled or not, with the current wallet
    state. *)
Definition bridge (enabled : bool) (w : Web3) (e : DetectionEvent) : list Step :=
  if enabled then autoLogEvent w e else [].

(** ** The bridge as the specification words it *)

(** The recognized set of the specification, [{"detected", "classified"}]. *)
Definition spec_recognized (e : DetectionEvent) : bool :=
  String.eqb (event_type e) "detected"
  || String.eqb (event_type e) "classified".

(** [itemType] is [className], or the label ["Unknown"] when it is absent. *)
Definition spec_itemType (e : DetectionEvent) : string :=
  match class_name e with
  | Some c => c
  | None => "Unknown"
  end.

(** A create call is issued if and only if the bridge is enabled, an
    identity is bound and the event type is recognized. *)
Definition spec_createCalls (enabled : bool) (w : Web3) (e : DetectionEvent)
  : list string :=
  if enabled && negb (falsy (currentAccount w)) && spec_recognized e
  then [spec_itemType e] else [].

(** ** The dashboard over a stream of messages *)

(** [useState([])] for [logs], [useState(false)] for [autoLog]; the
    component never calls [setAutoLog]. *)
Definition initialDashboard : Dashboard := mkDashboard false [].



(** The item types of the transactions sent to the contract, in order. *)
Fixpoint sentTransactions (steps : list Step) : list string :=
  match steps with
  | [] => []
  | ContractCreateWaste wasteType :: rest => wasteType :: sentTransactions rest
  | _ :: rest => sentTransactions rest
  end.

Definition alerts (steps : list Step) : list string :=
  flat_map (λ step, match step with Alert text => [text] | _ => [] end) steps.

(** ** The wallet *)

(** [accountsChanged] notifications, handled in the order they arrive. *)
Definition accountsChanged (notes : list (list string)) (w : Web3) : Web3 :=
  fold_left (λ w' accounts, handleAccountsChanged accounts w') notes w.

Definition noAccounts (accounts : list string) : bool :=
  match accounts with
  | [] => true
  | _ :: _ => false
  end.

(** How an awaited request ends. *)
Inductive Reply (A : Type) : Type :=
| Resolved (value : A)
| Thrown (error : string).
Arguments Resolved {A} value.
Arguments Thrown {A} error.

(** [window.ethereum] as the provider code uses it: the two account requests,
    [provider.getSigner()] followed by [new ethers.Contract(CONTRACT_ADDRESS,
    WasteTraceABI, signer)], and [provider.getNetwork()] read at
    [chainId]. *)
Record Ethereum : Type := mkEthereum {
  eth_accounts : Reply (list string);
  eth_requestAccounts : Reply (list string);
  getSigner : Reply Contract;
  getNetwork : Reply Z
}.

(** All four state variables of [Web3Provider]. *)
Record Provider : Type := mkProvider {
  web3 : Web3;
  provider : option Ethereum;
  chainId : option Z
}.

Definition initialProvider : Provider := mkProvider initial None None.

(** [accounts[0]] as [setCurrentAccount] stores it; on an empty array it is
    [undefined], which every test of [currentAccount] treats like the empty
    string it is represented by. *)
Definition firstAccount (accounts : list string) : string :=
  match accounts with
  | account :: _ => account
  | [] => ""
  end.

(** [initializeContract], with [window.ethereum] as [ethereum]. *)
Definition initializeContract (ethereum : option Ethereum) (p : Provider)
  : Provider * list Step :=
  match ethereum with
  | None => (p, [])
  | Some e =>
      match getSigner e with
      | Thrown error =>
          (mkProvider (web3 p) (Some e) (chainId p),
           [ConsoleError ["Error initializing contract:"; error]])
      | Resolved c =>
          let w := mkWeb3 (currentAccount (web3 p)) (Some c) in
          match getNetwork e with
          | Thrown error =>
              (mkProvider w (Some e) (chainId p),
               [ConsoleError ["Error initializing contract:"; error]])
          | Resolved n =>
              (mkProvider w (Some e) (Some n),
               [ConsoleLog ["Contract initialized:"]])
          end
      end
  end.

Definition setCurrentAccount (account : string) (p : Provider) : Provider :=
  mkProvider (mkWeb3 account (contract (web3 p))) (provider p) (chainId p).

(** [checkWalletIsConnected], once it and the [initializeContract] it starts
    have settled. *)
Definition checkWalletIsConnected (ethereum : option Ethereum) (p : Provider)
  : Provider * list Step :=
  match ethereum with
  | None => (p, [])
  | Some e =>
      match eth_accounts e with
      | Thrown error =>
          (p, [ConsoleError ["Error checking wallet connection:"; error]])
      | Resolved [] => (p, [])
      | Resolved (account :: _) =>
          initializeContract ethereum (setCurrentAccount account p)
      end
  end.

(** [connectWallet], once it and the [initializeContract] it starts have
    settled. *)
Definition connectWallet (ethereum : option Ethereum) (p : Provider)
  : Provider * list Step :=
  match ethereum with
  | None => (p, [Alert "Please install MetaMask!"])
  | Some e =>
      match eth_requestAccounts e with
      | Thrown error => (p, [ConsoleError ["Error connecting wallet:"; error]])
      | Resolved accounts =>
          initializeContract ethereum
            (setCurrentAccount (firstAccount accounts) p)
      end
  end.

(** Sample wallets. *)
Definition mining : Contract := mkContract (λ _, Mined "0xfeed").
Definition failing : Contract := mkContract (λ _, Failed "user rejected").

Definition metamask : Ethereum :=
  mkEthereum (Resolved ["0xA11CE"]) (Resolved ["0xA11CE"]) (Resolved mining)
    (Resolved 31337).

Definition locked : Ethereum :=
  mkEthereum (Resolved ["0xA11CE"]) (Resolved ["0xA11CE"])
    (Thrown "unknown account") (Resolved 31337).

(** ** The handler on raw frames *)

(** What [ws.onmessage] gets to see of a frame. [Throws] stands for the
    frames on which the [try] block throws, which it can only do before it
    has set or called anything: [JSON.parse] fails, the parsed value is
    [null], or the type is ["event"] and [events] is a truthy value without
    [map]. Every other frame is [Parsed]; a value without the members reads
    as a message of another type without events. *)
Inductive Frame : Type :=
| Throws (error : string)
| Parsed (data : Message).

(** [data.events.map(e => ({ ...e, timestamp: new Date().toISOString() }))]:
    each event gets the time read when it is copied, [clock i] for the
    event at index [i]. *)
Definition stampEach (clock : nat → string) (es : list DetectionEvent)
  : list DetectionEvent :=
  imap (λ i e, stamp (clock i) e) es.

(** [ws.onmessage], with its [catch]. *)
Definition handleFrame (d : Dashboard) (w : Web3) (clock : nat → string)
    (frame : Frame) : Dashboard * list Step :=
  match frame with
  | Throws error => (d, [ConsoleError ["WS Message Error"; error]])
  | Parsed data =>
      match String.eqb (message_type data) "event", events data with
      | true, Some es =>
          let newEvents := stampEach clock es in
          (mkDashboard (autoLog d) (firstn 50 (newEvents ++ logs d)),
           if autoLog d then flat_map (autoLogEvent w) newEvents else [])
      | _, _ => (d, [])
      end
  end.

(** A frame as it arrives: the wallet state the handler closes over, the
    clock and the frame. *)
Record Arrival : Type := mkArrival {
  arrival_wallet : Web3;
  arrival_clock : nat → string;
  arrival_frame : Frame
}.

Fixpoint receiveFrames (fs : list Arrival) (d : Dashboard)
  : Dashboard * list Step :=
  match fs with
  | [] => (d, [])
  | a :: rest =>
      let '(d1, steps1) :=
        handleFrame d (arrival_wallet a) (arrival_clock a) (arrival_frame a) in
      let '(d2, steps2) := receiveFrames rest d1 in
      (d2, steps1 ++ steps2)
  end.

(** The [console.error] of the frames the handler could not read. *)
Definition frameErrors (fs : list Arrival) : list Step :=
  flat_map
    (λ a, match arrival_frame a with
          | Throws error => [ConsoleError ["WS Message Error"; error]]
          | Parsed _ => []
          end) fs.

(** ** The handler the effect installs *)

(** What a render of the dashboard offers to a handler created in it:
    [autoLog] and, through [currentAccount] and [createWaste], the wallet
    state of that render. *)
Record Render : Type := mkRender {
  shown_autoLog : bool;
  shown_web3 : Web3
}.

(** [useEffect(..., [autoLog, currentAccount])]: the effect runs again when
    one of the two differs from the render before. *)
Definition depsChanged (previous current : Render) : bool :=
  negb (Bool.eqb (shown_autoLog previous) (shown_autoLog current))
  || negb (String.eqb (currentAccount (shown_web3 previous))
             (currentAccount (shown_web3 current))).

(** The render whose handler is installed after a series of renders: a
    render in which the effect runs installs its own handler, otherwise the
    handler installed before stays, with the [createWaste] (and so the
    [contract]) of its own render. *)
Fixpoint installed (handler previous : Render) (renders : list Render)
  : Render :=
  match renders with
  | [] => handler
  | r :: rest => installed (if depsChanged previous r then r else handler) r rest
  end.

(** The effect runs in the first render. *)
Definition mounted (first : Render) (later : list Render) : Render :=
  installed first first later.

(** The bridge of the installed handler. *)
Definition liveBridge (handler : Render) (e : DetectionEvent) : list Step :=
  bridge (shown_autoLog handler) (shown_web3 handler) e.

End Client.

(* ===================================================================== *)
(** * The analytics page *)
(* ===================================================================== *)

Module Analytics.
Import Client.

(** [const COLORS = [...]] *)
Definition COLORS : list string :=
  ["#0088FE"; "#00C49F"; "#FFBB28"; "#FF8042"; "#8884d8"].

(** [COLORS[index % COLORS.length]], the fill of the pie cell [index]. *)
Definition cellColor (index : nat) : option string :=
  COLORS !! (index mod length COLORS)%nat.

Definition spacedSummaryUrl : string := "http://localhost:8000/ analytics/summary".
Definition summaryUrl : string := "http://localhost:8000/analytics/summary".
Definition timelineUrl : string := "http://localhost:8000/analytics/timeline".

(** What a poll does besides setting state: the requests it starts and the
    [console.error("Failed to fetch analytics", error)] of its [catch]. *)
Inductive Trace : Type :=
| Request (url : string)
| LogFailure.

Section Fetching.

(** Parsed response bodies. *)
Variable Json : Type.

(** A [fetch] response: its [ok] flag and what [json()] gives. *)
Record Response : Type := mkResponse {
  ok : bool;
  json : Reply Json
}.

(** The state of the component. [summary] starts as [null] and [timeline]
    as the empty array, both written [None]; a stored body is [Some]. *)
Record Page : Type := mkPage {
  summary : option Json;
  timeline : option Json;
  loading : bool
}.

(** [useState(null)], [useState([])], [useState(true)] *)
Definition initialPage : Page := mkPage None None true.

(** [finally { setLoading(false) }] *)
Definition loaded (st : Page) : Page :=
  mkPage (summary st) (timeline st) false.

(** [fetchData]: both requests are started at once by [Promise.all]. *)
Definition fetchData (fetch : string → Reply Response) (st : Page)
  : Page * list Trace :=
  let requests := [Request spacedSummaryUrl; Request timelineUrl] in
  match fetch spacedSummaryUrl, fetch timelineUrl with
  | Resolved summaryRes, Resolved timelineRes =>
      if ok summaryRes && ok timelineRes then
        match json summaryRes, json timelineRes with
        | Resolved summaryData, Resolved timelineData =>
            (mkPage (Some summaryData) (Some timelineData) false, requests)
        | _, _ => (loaded st, requests ++ [LogFailure])
        end
      else (loaded st, requests)
  | _, _ => (loaded st, requests ++ [LogFailure])
  end.

(** [safeFetchData]: the second request is made once the first has been
    answered; [ok] is not looked at. *)
Definition safeFetchData (fetch : string → Reply Response) (st : Page)
  : Page * list Trace :=
  match fetch summaryUrl with
  | Thrown _ => (loaded st, [Request summaryUrl; LogFailure])
  | Resolved summaryRes =>
      let requests := [Request summaryUrl; Request timelineUrl] in
      match fetch timelineUrl with
      | Thrown _ => (loaded st, requests ++ [LogFailure])
      | Resolved timelineRes =>
          match json summaryRes, json timelineRes with
          | Resolved summaryData, Resolved timelineData =>
              (mkPage (Some summaryData) (Some timelineData) false, requests)
          | _, _ => (loaded st, requests ++ [LogFailure])
          end
      end
  end.

End Fetching.

Arguments mkResponse {Json} ok json.
Arguments ok {Json} r.
Arguments json {Json} r.
Arguments mkPage {Json} summary timeline loading.
Arguments summary {Json} p.
Arguments timeline {Json} p.
Arguments loading {Json} p.
Arguments initialPage {Json}.
Arguments loaded {Json} st.
Arguments fetchData {Json} fetch st.
Arguments safeFetchData {Json} fetch st.

(** A server that answers every request with status 500 and a JSON error
    body. *)
Definition failingServer (url : string) : Reply (Response string) :=
  Resolved (mkResponse false (Resolved "{error}")).

End Analytics.

(* ===================================================================== *)
(** * Properties of the contract *)
(* ===================================================================== *)

Module Ledger.
Import WasteTrace.

(** ** Reading after a write *)

Lemma read_insert_eq (m : gmap Z Waste) (k : Z) (w : Waste) (c : Z)
    (l : list Event) :
  read (mkState (<[k := w]> m) c l) k = w.
Proof. unfold read; simpl. by rewrite lookup_insert_eq. Qed.

Lemma read_insert_ne (s : State) (k j : Z) (w : Waste) (c : Z)
    (l : list Event) :
  k ≠ j → read (mkState (<[k := w]> (wastes s)) c l) j = read s j.
Proof. intros Hne. unfold read; simpl. by rewrite lookup_insert_ne. Qed.

Lemma read_init (k : Z) : read init k = zero_waste.
Proof. unfold read, init; simpl. by rewrite lookup_empty. Qed.

(** ** What each entry point does, case by case *)

Lemma createWaste_success (_type : string) (env : Env) (s : State) :
  count s < max_uint256 →
  createWaste _type env s =
    Success
      (mkState
         (<[count s + 1 := mkWaste (count s + 1) _type "Generated"
                             (msg_sender env) (block_timestamp env)]> (wastes s))
         (count s + 1)
         (logs s ++ [WasteCreated (count s + 1) (msg_sender env)])).
Proof.
  intros Hlt. unfold createWaste.
  destruct (Z.leb_spec max_uint256 (count s)) as [Hge | _]; [lia | reflexivity].
Qed.

Lemma createWaste_overflow (_type : string) (env : Env) (s : State) :
  max_uint256 ≤ count s → createWaste _type env s = Reverted (Panic 17).
Proof.
  intros Hge. unfold createWaste.
  destruct (Z.leb_spec max_uint256 (count s)) as [_ | Hlt]; [reflexivity | lia].
Qed.

Lemma createWaste_inv (_type : string) (env : Env) (s s' : State) :
  createWaste _type env s = Success s' →
  count s < max_uint256 ∧
  s' = mkState
         (<[count s + 1 := mkWaste (count s + 1) _type "Generated"
                             (msg_sender env) (block_timestamp env)]> (wastes s))
         (count s + 1)
         (logs s ++ [WasteCreated (count s + 1) (msg_sender env)]).
Proof.
  unfold createWaste.
  destruct (Z.leb_spec max_uint256 (count s)) as [Hge | Hlt]; [discriminate |].
  intros [= <-]. split; [exact Hlt | reflexivity].
Qed.

Lemma updateStatus_inv (_id : Z) (_status : string) (env : Env) (s s' : State) :
  updateStatus _id _status env s = Success s' →
  id (read s _id) ≠ 0 ∧ owner (read s _id) = msg_sender env ∧
  s' = mkState (<[_id := set_status (read s _id) _status]> (wastes s))
         (count s) (logs s ++ [StatusUpdated _id _status]).
Proof.
  unfold updateStatus, require.
  destruct (Z.eqb_spec (id (read s _id)) 0) as [Hz | Hnz]; simpl; [discriminate |].
  destruct (Z.eqb_spec (owner (read s _id)) (msg_sender env)) as [Ho | Hno];
    [| discriminate].
  intros [= <-]. repeat split; assumption.
Qed.

Lemma updateStatus_not_found (_id : Z) (_status : string) (env : Env) (s : State) :
  id (read s _id) = 0 →
  updateStatus _id _status env s = Reverted (Error "Waste not found").
Proof.
  intros Hz. unfold updateStatus, require. rewrite Hz. reflexivity.
Qed.

Lemma updateStatus_not_owner (_id : Z) (_status : string) (env : Env) (s : State) :
  id (read s _id) ≠ 0 → owner (read s _id) ≠ msg_sender env →
  updateStatus _id _status env s = Reverted (Error "Not owner").
Proof.
  intros Hnz Hno. unfold updateStatus, require.
  destruct (Z.eqb_spec (id (read s _id)) 0) as [Hz | _]; [contradiction |]; simpl.
  destruct (Z.eqb_spec (owner (read s _id)) (msg_sender env)) as [Ho | _];
    [contradiction | reflexivity].
Qed.

Lemma transferWaste_inv (_id : Z) (_to : address) (env : Env) (s s' : State) :
  transferWaste _id _to env s = Success s' →
  owner (read s _id) = msg_sender env ∧
  s' = mkState (<[_id := set_owner (read s _id) _to]> (wastes s))
         (count s) (logs s ++ [WasteTransferred _id (msg_sender env) _to]).
Proof.
  unfold transferWaste, require.
  destruct (Z.eqb_spec (owner (read s _id)) (msg_sender env)) as [Ho | Hno];
    [| discriminate].
  intros [= <-]. split; [assumption | reflexivity].
Qed.

Lemma transferWaste_not_owner (_id : Z) (_to : address) (env : Env) (s : State) :
  owner (read s _id) ≠ msg_sender env →
  transferWaste _id _to env s = Reverted (Error "Not owner").
Proof.
  intros Hno. unfold transferWaste, require.
  destruct (Z.eqb_spec (owner (read s _id)) (msg_sender env)) as [Ho | _];
    [contradiction | reflexivity].
Qed.

Lemma transferWaste_owner (_id : Z) (_to : address) (env : Env) (s : State) :
  owner (read s _id) = msg_sender env →
  transferWaste _id _to env s =
    Success
      (mkState (<[_id := set_owner (read s _id) _to]> (wastes s))
         (count s) (logs s ++ [WasteTransferred _id (msg_sender env) _to])).
Proof.
  intros Ho. unfold transferWaste, require. rewrite Ho, Z.eqb_refl. reflexivity.
Qed.

(** A reverted call leaves the state as it was. *)
Lemma exec_reverted (tx : Tx) (s : State) (f : Failure) :
  call tx s = Reverted f → exec tx s = s.
Proof. intros H. unfold exec. rewrite H. reflexivity. Qed.

Lemma exec_success (tx : Tx) (s s' : State) :
  call tx s = Success s' → exec tx s = s'.
Proof. intros H. unfold exec. rewrite H. reflexivity. Qed.

(** ** The store invariants *)

Lemma consistent_init : consistent init.
Proof.
  unfold consistent. simpl. split; [| split].
  - unfold max_uint256. lia.
  - intros k Hk. lia.
  - intros k _. rewrite read_init. reflexivity.
Qed.

Lemma clean_init : clean init.
Proof. intros k _. apply read_init. Qed.

Lemma consistent_createWaste (_type : string) (env : Env) (s s' : State) :
  consistent s → createWaste _type env s = Success s' → consistent s'.
Proof.
  intros (Hc & Hin & Hout) H.
  apply createWaste_inv in H as [Hlt ->].
  unfold consistent; simpl. split; [lia | split].
  - intros k Hk. destruct (decide (count s + 1 = k)) as [<- | Hne].
    + rewrite read_insert_eq. reflexivity.
    + rewrite read_insert_ne by exact Hne.
      apply Hin. lia.
  - intros k Hk. rewrite read_insert_ne by lia.
      apply Hout. lia.
Qed.

Lemma consistent_updateStatus (_id : Z) (_status : string) (env : Env)
    (s s' : State) :
  consistent s → updateStatus _id _status env s = Success s' → consistent s'.
Proof.
  intros (Hc & Hin & Hout) H.
  apply updateStatus_inv in H as (_ & _ & ->).
  unfold consistent; simpl. split; [lia | split].
  - intros k Hk. destruct (decide (_id = k)) as [<- | Hne].
    + rewrite read_insert_eq. simpl. apply Hin, Hk.
    + rewrite read_insert_ne by exact Hne.
      apply Hin, Hk.
  - intros k Hk. destruct (decide (_id = k)) as [<- | Hne].
    + rewrite read_insert_eq. simpl. apply Hout, Hk.
    + rewrite read_insert_ne by exact Hne.
      apply Hout, Hk.
Qed.

Lemma consistent_transferWaste (_id : Z) (_to : address) (env : Env)
    (s s' : State) :
  consistent s → transferWaste _id _to env s = Success s' → consistent s'.
Proof.
  intros (Hc & Hin & Hout) H.
  apply transferWaste_inv in H as (_ & ->).
  unfold consistent; simpl. split; [lia | split].
  - intros k Hk. destruct (decide (_id = k)) as [<- | Hne].
    + rewrite read_insert_eq. simpl. apply Hin, Hk.
    + rewrite read_insert_ne by exact Hne.
      apply Hin, Hk.
  - intros k Hk. destruct (decide (_id = k)) as [<- | Hne].
    + rewrite read_insert_eq. simpl. apply Hout, Hk.
    + rewrite read_insert_ne by exact Hne.
      apply Hout, Hk.
Qed.

Lemma consistent_call (tx : Tx) (s s' : State) :
  consistent s → call tx s = Success s' → consistent s'.
Proof.
  intros Hs. unfold call. destruct (tx_call tx) as [_type | _id _status | _id _to].
  - apply consistent_createWaste, Hs.
  - apply consistent_updateStatus, Hs.
  - apply consistent_transferWaste, Hs.
Qed.

Lemma consistent_exec (tx : Tx) (s : State) :
  consistent s → consistent (exec tx s).
Proof.
  intros Hs. unfold exec. destruct (call tx s) as [s' | f] eqn:E.
  - exact (consistent_call tx s s' Hs E).
  - exact Hs.
Qed.

Lemma consistent_run (txs : list Tx) (s : State) :
  consistent s → consistent (run txs s).
Proof.
  revert s. induction txs as [| tx txs IH]; intros s Hs; simpl.
  - exact Hs.
  - apply IH, consistent_exec, Hs.
Qed.

Lemma clean_call (tx : Tx) (s s' : State) :
  consistent s → clean s → nonzero_sender tx →
  call tx s = Success s' → clean s'.
Proof.
  intros (Hc & Hin & Hout) Hclean Hsender.
  unfold call, nonzero_sender in *.
  destruct (tx_call tx) as [_type | _id _status | _id _to]; intros H k Hk.
  - apply createWaste_inv in H as [Hlt ->]. simpl in Hk.
    rewrite read_insert_ne by lia.
      apply Hclean. lia.
  - apply updateStatus_inv in H as (Hnz & _ & ->). simpl in Hk.
    assert (Hne : _id ≠ k).
    { intros ->. apply Hnz, Hout, Hk. }
    rewrite read_insert_ne by exact Hne.
      apply Hclean, Hk.
  - apply transferWaste_inv in H as (Ho & ->). simpl in Hk.
    assert (Hne : _id ≠ k).
    { intros ->. apply Hsender. rewrite <- Ho, (Hclean k Hk). reflexivity. }
    rewrite read_insert_ne by exact Hne.
      apply Hclean, Hk.
Qed.

Lemma clean_run (txs : list Tx) (s : State) :
  consistent s → clean s → Forall nonzero_sender txs → clean (run txs s).
Proof.
  revert s. induction txs as [| tx txs IH]; intros s Hs Hclean Hall; simpl.
  - exact Hclean.
  - inversion Hall as [| ? ? Htx Hrest]; subst.
    apply IH; [apply consistent_exec, Hs | | exact Hrest].
    unfold exec. destruct (call tx s) as [s' | f] eqn:E.
    + exact (clean_call tx s s' Hs Hclean Htx E).
    + exact Hclean.
Qed.

Lemma found_iff (w : Waste) : found w = true ↔ id w ≠ 0.
Proof.
  unfold found. destruct (Z.eqb_spec (id w) 0) as [Hz | Hnz]; simpl.
  - split; [discriminate | contradiction].
  - split; [intros _; exact Hnz | reflexivity].
Qed.

Lemma consistent_found (s : State) (k : Z) :
  consistent s → (found (read s k) = true ↔ 1 ≤ k ≤ count s).
Proof.
  intros (Hc & Hin & Hout). rewrite found_iff. split.
  - intros Hnz. destruct (decide (1 ≤ k ≤ count s)) as [Hk | Hk]; [exact Hk |].
    contradiction (Hnz (Hout k Hk)).
  - intros Hk. rewrite (Hin k Hk). lia.
Qed.

(** Why the last part of the invariant below speaks of senders other than
    [address(0)]. No account and no contract sends from [address(0)]; a
    call that carried it as [msg.sender] would pass the only test of
    [transferWaste] on an unwritten key, whose owner reads as [address(0)],
    and leave an owner under a key outside [1 .. count]. *)
Example transferWaste_from_zero_address :
  let s := run [by_ 0 1000 (TransferWaste 5 bob)] init in
  count s = 0 ∧
  read s 5 = mkWaste 0 "" "" bob 0 ∧
  ¬ (∀ k, ¬ (1 ≤ k ≤ count s) → read s k = zero_waste).
Proof.
  intros s.
  assert (Hcount : count s = 0) by (vm_compute; reflexivity).
  assert (Hread : read s 5 = mkWaste 0 "" "" bob 0) by (vm_compute; reflexivity).
  split; [exact Hcount | split; [exact Hread |]].
  intros H. specialize (H 5). rewrite Hcount, Hread in H.
  assert (Hout : ¬ (1 ≤ 5 ≤ 0)) by lia.
  apply H in Hout. discriminate Hout.
Qed.

(** C10. In every state reached from the freshly deployed contract by calls
    of [createWaste], [updateStatus] and [transferWaste], the record under
    key [i] has [id] equal to [i] for every [1 <= i <= count], every key
    outside [1 .. count] reads as a record whose [id] is [0], and so the
    existence test [wastes[k].id != 0] of [updateStatus] holds exactly for
    [1 <= k <= count]; the calls being sent, as every transaction is, by
    an address other than [address(0)], every key outside [1 .. count]
    reads as the all-zero record. *)
Theorem store_invariant (txs : list Tx) :
  let s := run txs init in
  (∀ i, 1 ≤ i ≤ count s → id (read s i) = i) ∧
  (∀ k, ¬ (1 ≤ k ≤ count s) → id (read s k) = 0) ∧
  (∀ k, found (read s k) = true ↔ 1 ≤ k ≤ count s) ∧
  (Forall nonzero_sender txs →
   ∀ k, ¬ (1 ≤ k ≤ count s) → read s k = zero_waste).
Proof.
  intros s.
  assert (Hs : consistent s) by apply consistent_run, consistent_init.
  split; [| split; [| split]].
  - destruct Hs as (_ & Hin & _). exact Hin.
  - destruct Hs as (_ & _ & Hout). exact Hout.
  - intros k. apply consistent_found, Hs.
  - intros Hall.
    apply clean_run; [apply consistent_init | apply clean_init | exact Hall].
Qed.

Lemma store_invariant_witness :
  let s := run sample_txs init in
  id (read s 1) = 1 ∧ read s 2 = zero_waste.
Proof.
  intros s.
  destruct (store_invariant sample_txs) as (Hin & _ & _ & Hclean).
  assert (Hcount : count (run sample_txs init) = 1)
    by (vm_compute; reflexivity).
  split.
  - apply Hin. rewrite Hcount. lia.
  - apply Hclean.
    + repeat constructor; unfold nonzero_sender; simpl; unfold alice, bob; lia.
    + rewrite Hcount. lia.
Defined.

(** ** The counter and the ids it hands out *)

Lemma count_call (tx : Tx) (s s' : State) :
  call tx s = Success s' →
  count s' = count s + (if is_create tx then 1 else 0).
Proof.
  unfold call, is_create.
  destruct (tx_call tx) as [_type | _id _status | _id _to]; intros H.
  - apply createWaste_inv in H as [_ ->]. reflexivity.
  - apply updateStatus_inv in H as (_ & _ & ->). simpl. lia.
  - apply transferWaste_inv in H as (_ & ->). simpl. lia.
Qed.

Lemma count_exec (tx : Tx) (s : State) :
  count (exec tx s) =
  count s + (if is_create tx && succeeds tx s then 1 else 0).
Proof.
  unfold exec, succeeds. destruct (call tx s) as [s' | f] eqn:E.
  - rewrite (count_call tx s s' E). destruct (is_create tx); reflexivity.
  - rewrite andb_false_r. lia.
Qed.

Lemma assigned_ids_from (txs : list Tx) (s : State) :
  assigned_ids txs s =
    seqZ (count s + 1) (Z.of_nat (length (assigned_ids txs s))) ∧
  count (run txs s) = count s + Z.of_nat (length (assigned_ids txs s)).
Proof.
  revert s. induction txs as [| tx txs IH]; intros s; simpl.
  - split; [reflexivity | lia].
  - unfold exec. destruct (call tx s) as [s' | f] eqn:E.
    + pose proof (count_call tx s s' E) as Hcount. unfold is_create in Hcount.
      destruct (tx_call tx) as [_type | _id _status | _id _to].
      * destruct (IH s') as [Hids Hrun]. simpl length. split.
        -- rewrite seqZ_cons by lia. f_equal; [lia |].
           rewrite Hids at 1. f_equal; lia.
        -- rewrite Hrun. lia.
      * destruct (IH s') as [Hids Hrun]. rewrite Hcount in *.
        rewrite Z.add_0_r in *. split; assumption.
      * destruct (IH s') as [Hids Hrun]. rewrite Hcount in *.
        rewrite Z.add_0_r in *. split; assumption.
    + destruct (IH s) as [Hids Hrun].
      destruct (tx_call tx); split; assumption.
Qed.

Lemma creates_all_succeed (txs : list Tx) (s : State) :
  forallb is_create txs = true →
  count s + Z.of_nat (length txs) ≤ max_uint256 →
  length (assigned_ids txs s) = length txs.
Proof.
  revert s. induction txs as [| tx txs IH]; intros s Hall Hroom; simpl.
  - reflexivity.
  - simpl in Hall. apply andb_prop in Hall as [Htx Hrest].
    simpl length in Hroom. unfold is_create in Htx. unfold call.
    destruct (tx_call tx) as [_type | _id _status | _id _to]; try discriminate.
    rewrite createWaste_success by lia. simpl. f_equal.
    apply IH; [exact Hrest | simpl; lia].
Qed.

Lemma emitted_createWaste (_type : string) (env : Env) (s s' : State) :
  createWaste _type env s = Success s' →
  emitted s s' = [WasteCreated (count s + 1) (msg_sender env)].
Proof.
  intros H. apply createWaste_inv in H as [_ ->].
  unfold emitted. simpl. apply drop_app_length.
Qed.

(** The ids read off the events are the values [count] took. *)
Lemma issued_ids_assigned (txs : list Tx) (s : State) :
  issued_ids txs s = assigned_ids txs s.
Proof.
  revert s. induction txs as [| tx txs IH]; intros s; simpl; [reflexivity |].
  unfold call, exec, call.
  destruct (tx_call tx) as [_type | _id _status | _id _to]; try apply IH.
  destruct (createWaste _type (tx_env tx) s) as [s' | f] eqn:E; [| apply IH].
  rewrite (emitted_createWaste _ _ _ _ E), IH.
  apply createWaste_inv in E as [_ ->]. reflexivity.
Qed.

Lemma length_assigned_ids (txs : list Tx) (s : State) :
  length (assigned_ids txs s) = accepted_creates txs s.
Proof.
  revert s. induction txs as [| tx txs IH]; intros s; simpl; [reflexivity |].
  unfold is_create, succeeds, exec.
  destruct (tx_call tx) as [_type | _id _status | _id _to]; simpl;
    destruct (call tx s) as [s' | f]; simpl; rewrite IH; reflexivity.
Qed.

(** C3. From the freshly deployed contract, the ids handed out by the
    accepted [createWaste] calls of any sequence of transactions, read off
    the [WasteCreated] events those calls emit, are exactly [1, 2, ..., n]
    in submission order, [n] being the number of accepted creations and the
    final value of [count]; the records stored at the end are found under
    exactly these ids, each with its [id] member equal to its key. An
    accepted creation moves the counter by one, emits one [WasteCreated]
    with the new counter value and stores a record with that [id] under
    that key; the counter moves on no other occasion. A sequence of [n]
    creations with [n <= type(uint256).max] is accepted as a whole. *)
Theorem create_ids_sequential (txs : list Tx) :
  let s := run txs init in
  let ids := issued_ids txs init in
  let n := accepted_creates txs init in
  ids = seqZ 1 (Z.of_nat n) ∧
  count s = Z.of_nat n ∧
  ids = assigned_ids txs init ∧
  (∀ i, i ∈ ids ↔ found (getWaste i s) = true) ∧
  (∀ i, i ∈ ids → id (getWaste i s) = i) ∧
  (∀ tx s0 s', is_create tx = true → call tx s0 = Success s' →
     count s' = count s0 + 1 ∧
     emitted s0 s' = [WasteCreated (count s0 + 1) (msg_sender (tx_env tx))] ∧
     id (read s' (count s0 + 1)) = count s0 + 1) ∧
  (∀ tx s0, count (exec tx s0) =
            count s0 + (if is_create tx && succeeds tx s0 then 1 else 0)) ∧
  (forallb is_create txs = true →
   Z.of_nat (length txs) ≤ max_uint256 →
   n = length txs ∧ ids = seqZ 1 (Z.of_nat (length txs))).
Proof.
  intros s ids n.
  assert (Hs : consistent s) by apply consistent_run, consistent_init.
  destruct (assigned_ids_from txs init) as [Hids Hrun].
  simpl in Hids, Hrun. fold s in Hrun.
  rewrite length_assigned_ids in Hids, Hrun. fold n in Hids, Hrun.
  assert (Heq : ids = assigned_ids txs init) by apply issued_ids_assigned.
  assert (Hseq : ids = seqZ 1 (Z.of_nat n)) by (rewrite Heq; exact Hids).
  assert (Hmem : ∀ i, i ∈ ids ↔ 1 ≤ i ≤ count s).
  { intros i. rewrite Hseq, elem_of_seqZ, Hrun. lia. }
  split; [exact Hseq | split; [exact Hrun | split; [exact Heq |]]].
  split; [| split; [| split; [| split]]].
  - intros i. rewrite Hmem. symmetry. apply consistent_found, Hs.
  - intros i Hi. apply Hmem in Hi.
    destruct Hs as (_ & Hin & _). apply Hin, Hi.
  - intros tx s0 s' Hcreate H. unfold is_create in Hcreate. unfold call in H.
    destruct (tx_call tx) as [_type | |]; try discriminate.
    split; [| split].
    + apply createWaste_inv in H as [_ ->]. reflexivity.
    + apply (emitted_createWaste _type), H.
    + apply createWaste_inv in H as [_ ->]. rewrite read_insert_eq. reflexivity.
  - apply count_exec.
  - intros Hall Hroom.
    assert (Hn : n = length txs).
    { unfold n. rewrite <- length_assigned_ids.
      apply creates_all_succeed; [exact Hall | simpl; lia]. }
    split; [exact Hn | rewrite Hseq, Hn; reflexivity].
Qed.

Lemma create_ids_sequential_witness :
  issued_ids sample_creates init = [1; 2; 3] ∧
  count (run sample_creates init) = 3 ∧
  id (getWaste 2 (run sample_creates init)) = 2.
Proof.
  destruct (create_ids_sequential sample_creates)
    as (_ & _ & _ & _ & Hid & _ & _ & Hall).
  destruct Hall as [Hn Hseq];
    [reflexivity | unfold max_uint256; simpl; lia |].
  split; [rewrite Hseq; reflexivity | split; [vm_compute; reflexivity |]].
  apply Hid. rewrite Hseq. apply elem_of_seqZ. simpl. lia.
Defined.

(** ** Creation and lookup *)

(** C4. For every type string and every caller, [createWaste] (which has
    room as long as [count] is below [type(uint256).max]) takes the next
    id, [count + 1], and stores under it a record with that id, the type as
    given, status ["Generated"], the caller as owner and the block
    timestamp of the call; after [createWaste("Plastic")] on the fresh
    contract, [getWaste(1)] has type ["Plastic"] and status
    ["Generated"]. *)
Theorem createWaste_stores_record (_type : string) (env : Env) (s : State) :
  count s < max_uint256 →
  (∃ s', createWaste _type env s = Success s' ∧
         count s' = count s + 1 ∧
         getWaste (count s + 1) s' =
           mkWaste (count s + 1) _type "Generated" (msg_sender env)
             (block_timestamp env)) ∧
  wasteType (getWaste 1 (exec (mkTx env (CreateWaste "Plastic")) init))
    = "Plastic" ∧
  status (getWaste 1 (exec (mkTx env (CreateWaste "Plastic")) init))
    = "Generated".
Proof.
  intros Hlt. split.
  - eexists. split; [apply createWaste_success, Hlt |]. split; [reflexivity |].
    unfold getWaste. apply read_insert_eq.
  - assert (Hroom : count init < max_uint256)
      by (unfold max_uint256; simpl; lia).
    rewrite (exec_success (mkTx env (CreateWaste "Plastic")) init _
               (createWaste_success "Plastic" env init Hroom)).
    unfold getWaste. rewrite read_insert_eq. split; reflexivity.
Qed.

Lemma createWaste_stores_record_witness :
  ∃ s', createWaste "Plastic" (mkEnv alice 1000) init = Success s' ∧
        count s' = 1 ∧
        getWaste 1 s' = mkWaste 1 "Plastic" "Generated" alice 1000.
Proof.
  refine (proj1 (createWaste_stores_record "Plastic" (mkEnv alice 1000) init _)).
  unfold max_uint256; simpl; lia.
Defined.

(** C5. In every state reached from the fresh contract, [getWaste(0)]
    gives the "not found" answer (a record whose [id] is [0]), and so does
    [getWaste(k)] for every [k] that no creation was assigned; a record that
    is found sits under a key of at least [1] and carries that key as its
    [id], so no record with [id] zero exists. *)
Theorem getWaste_not_found (txs : list Tx) :
  let s := run txs init in
  found (getWaste 0 s) = false ∧
  (∀ k, k ∉ assigned_ids txs init → found (getWaste k s) = false) ∧
  (∀ k, found (getWaste k s) = true → 1 ≤ k ∧ id (getWaste k s) = k).
Proof.
  intros s.
  assert (Hs : consistent s) by apply consistent_run, consistent_init.
  destruct (assigned_ids_from txs init) as [Hids Hrun].
  simpl in Hids, Hrun. fold s in Hrun.
  assert (Hmiss : ∀ k, ¬ (1 ≤ k ≤ count s) → found (getWaste k s) = false).
  { intros k Hk. apply not_true_is_false. intros Hf.
    apply Hk. apply (consistent_found s k Hs). exact Hf. }
  split; [apply Hmiss; lia | split].
  - intros k Hk. apply Hmiss. intros Hin. apply Hk.
    rewrite Hids. apply elem_of_seqZ. lia.
  - intros k Hf. apply (consistent_found s k Hs) in Hf.
    destruct Hs as (_ & Hin & _). split; [lia | apply Hin, Hf].
Qed.

Lemma getWaste_not_found_witness :
  found (getWaste 2 (run sample_txs init)) = false.
Proof.
  refine (proj1 (proj2 (getWaste_not_found sample_txs)) 2 _).
  change (assigned_ids sample_txs init) with [1].
  apply not_elem_of_cons. split; [lia | apply not_elem_of_nil].
Defined.

(** ** Authorization *)

(** On a key that was never written, [transferWaste] has no existence test
    to fail: the owner read there is [address(0)], and a caller other than
    [address(0)] is turned away as not being the owner. *)
Lemma transferWaste_absent_record (_id : Z) (_to : address) (env : Env)
    (s : State) :
  read s _id = zero_waste → msg_sender env ≠ 0 →
  transferWaste _id _to env s = Reverted (Error "Not owner").
Proof.
  intros Hzero Hsender. apply transferWaste_not_owner.
  rewrite Hzero. simpl. congruence.
Qed.

(** C1, at the failing input. On the fresh contract, where no record exists,
    [transferWaste(1, bob)] called by Alice reverts with ["Not owner"], the
    failure the store contract calls Unauthorized, while [updateStatus(1, _)]
    in the same state reverts with ["Waste not found"]; the state is left
    as it was in both cases. *)
Theorem transferWaste_missing_record :
  call (by_ alice 1000 (TransferWaste 1 bob)) init
    = Reverted (Error "Not owner") ∧
  store_error (Error "Not owner") = Some Unauthorized ∧
  call (by_ alice 1000 (UpdateStatus 1 "Collected")) init
    = Reverted (Error "Waste not found") ∧
  store_error (Error "Waste not found") = Some NotFound ∧
  exec (by_ alice 1000 (TransferWaste 1 bob)) init = init.
Proof. repeat split. Qed.

(** C2. For a record that exists and a caller who is not its current owner,
    [updateStatus] and [transferWaste] revert with ["Not owner"]
    (Unauthorized) and the state stays as it was; and once
    [transferWaste(_id, B)] called by [A] has succeeded, with [B] another
    identity than [A], [updateStatus(_id, _)] called by [A] reverts with
    ["Not owner"]: the check reads the owner now stored, [B]. *)
Theorem non_owner_unauthorized (s : State) (_id : Z) :
  found (read s _id) = true →
  store_error (Error "Not owner") = Some Unauthorized ∧
  (∀ env, msg_sender env ≠ owner (read s _id) →
     (∀ _status,
        updateStatus _id _status env s = Reverted (Error "Not owner") ∧
        exec (mkTx env (UpdateStatus _id _status)) s = s) ∧
     (∀ _to,
        transferWaste _id _to env s = Reverted (Error "Not owner") ∧
        exec (mkTx env (TransferWaste _id _to)) s = s)) ∧
  (∀ envA B s1,
     transferWaste _id B envA s = Success s1 → B ≠ msg_sender envA →
     ∀ envA' _status, msg_sender envA' = msg_sender envA →
       updateStatus _id _status envA' s1 = Reverted (Error "Not owner") ∧
       exec (mkTx envA' (UpdateStatus _id _status)) s1 = s1).
Proof.
  intros Hfound. apply found_iff in Hfound.
  split; [reflexivity | split].
  - intros env Hsender.
    assert (Hno : owner (read s _id) ≠ msg_sender env) by congruence.
    split; intros x.
    + pose proof (updateStatus_not_owner _id x env s Hfound Hno) as E.
      split; [exact E | exact (exec_reverted (mkTx env (UpdateStatus _id x)) s _ E)].
    + pose proof (transferWaste_not_owner _id x env s Hno) as E.
      split; [exact E | exact (exec_reverted (mkTx env (TransferWaste _id x)) s _ E)].
  - intros envA B s1 Htransfer HB envA' _status HA.
    apply transferWaste_inv in Htransfer as (_ & ->).
    assert (E : updateStatus _id _status envA'
                  (mkState (<[_id := set_owner (read s _id) B]> (wastes s))
                     (count s)
                     (logs s ++ [WasteTransferred _id (msg_sender envA) B]))
                = Reverted (Error "Not owner")).
    { apply updateStatus_not_owner; rewrite read_insert_eq; simpl.
      - exact Hfound.
      - congruence. }
    split; [exact E | exact (exec_reverted (mkTx envA' (UpdateStatus _id _status)) _ _ E)].
Qed.

Lemma non_owner_unauthorized_witness :
  let s := run [by_ alice 1000 (CreateWaste "Plastic")] init in
  let s1 := exec (by_ alice 1001 (TransferWaste 1 bob)) s in
  updateStatus 1 "Collected" (mkEnv carol 1001) s
    = Reverted (Error "Not owner") ∧
  updateStatus 1 "Disposed" (mkEnv alice 1003) s1
    = Reverted (Error "Not owner").
Proof.
  intros s s1.
  destruct (non_owner_unauthorized s 1 eq_refl) as (_ & Hother & Hformer).
  split.
  - refine (proj1 (proj1 (Hother (mkEnv carol 1001) _) "Collected")).
    vm_compute. discriminate.
  - refine (proj1 (Hformer (mkEnv alice 1001) bob s1 eq_refl _
                     (mkEnv alice 1003) "Disposed" eq_refl)).
    vm_compute. discriminate.
Defined.

(** ** Change notifications *)

Lemma logs_call (tx : Tx) (s s' : State) :
  call tx s = Success s' → logs s' = logs s ++ [notification tx s].
Proof.
  unfold call, notification.
  destruct (tx_call tx) as [_type | _id _status | _id _to]; intros H.
  - apply createWaste_inv in H as [_ ->]. reflexivity.
  - apply updateStatus_inv in H as (_ & _ & ->). reflexivity.
  - apply transferWaste_inv in H as (_ & ->). reflexivity.
Qed.

Lemma logs_exec (tx : Tx) (s : State) :
  logs (exec tx s) =
  logs s ++ (if succeeds tx s then [notification tx s] else []).
Proof.
  unfold exec, succeeds. destruct (call tx s) as [s' | f] eqn:E.
  - apply logs_call, E.
  - symmetry. apply app_nil_r.
Qed.

(** C8. An accepted [createWaste], [updateStatus] or [transferWaste] appends
    exactly one event to the log, [WasteCreated], [StatusUpdated] or
    [WasteTransferred] with the id and the payload of that call; a call that
    reverts appends nothing; so the log of a run is the log before it
    followed by one event per accepted call, in the order of the calls. *)
Theorem one_notification_per_mutation (txs : list Tx) (s : State) :
  (∀ tx s0,
     match call tx s0 with
     | Success s' => logs s' = logs s0 ++ [notification tx s0]
     | Reverted _ => logs (exec tx s0) = logs s0
     end) ∧
  logs (run txs s) = logs s ++ notifications txs s.
Proof.
  split.
  - intros tx s0. destruct (call tx s0) as [s' | f] eqn:E.
    + apply logs_call, E.
    + rewrite (exec_reverted tx s0 f E). reflexivity.
  - revert s. induction txs as [| tx txs IH]; intros s; simpl.
    + symmetry. apply app_nil_r.
    + rewrite IH, logs_exec. symmetry. apply app_assoc.
Qed.

(** ** What a mutation leaves alone *)

Lemma fixed_part_exec (tx : Tx) (s : State) (k : Z) :
  consistent s → found (read s k) = true →
  fixed_part (read (exec tx s) k) = fixed_part (read s k).
Proof.
  intros Hs Hk. apply (consistent_found s k Hs) in Hk.
  unfold exec. destruct (call tx s) as [s' | f] eqn:E; [| reflexivity].
  unfold call in E.
  destruct (tx_call tx) as [_type | _id _status | _id _to].
  - apply createWaste_inv in E as [_ ->]. rewrite read_insert_ne by lia.
    reflexivity.
  - apply updateStatus_inv in E as (_ & _ & ->).
    destruct (decide (_id = k)) as [-> | Hne].
    + rewrite read_insert_eq. reflexivity.
    + rewrite read_insert_ne by exact Hne. reflexivity.
  - apply transferWaste_inv in E as (_ & ->).
    destruct (decide (_id = k)) as [-> | Hne].
    + rewrite read_insert_eq. reflexivity.
    + rewrite read_insert_ne by exact Hne. reflexivity.
Qed.

Lemma fixed_part_found (w w' : Waste) :
  fixed_part w' = fixed_part w → found w = true → found w' = true.
Proof. unfold fixed_part, found. intros [= -> _ _] H. exact H. Qed.

Lemma fixed_part_run (txs : list Tx) (s : State) (k : Z) :
  consistent s → found (read s k) = true →
  fixed_part (read (run txs s) k) = fixed_part (read s k).
Proof.
  revert s. induction txs as [| tx txs IH]; intros s Hs Hk; simpl.
  - reflexivity.
  - pose proof (fixed_part_exec tx s k Hs Hk) as Hstep.
    rewrite IH; [exact Hstep | apply consistent_exec, Hs |].
    exact (fixed_part_found _ _ Hstep Hk).
Qed.

(** C9. [updateStatus] rewrites the [status] member of the record under its
    [_id] and nothing else, [transferWaste] the [owner] member and nothing
    else: the other members of that record and every other key read as
    before. [createWaste] on a reachable state leaves every existing record
    as it is. Hence along any run the [id], [wasteType] and [timestamp] of
    an existing record stay what they were. *)
Theorem mutation_frame (txs0 txs : list Tx) (k : Z) :
  let s := run txs0 init in
  (∀ s0 _id _status env s',
     updateStatus _id _status env s0 = Success s' →
     read s' _id =
       mkWaste (id (read s0 _id)) (wasteType (read s0 _id)) _status
         (owner (read s0 _id)) (timestamp (read s0 _id)) ∧
     ∀ j, j ≠ _id → read s' j = read s0 j) ∧
  (∀ s0 _id _to env s',
     transferWaste _id _to env s0 = Success s' →
     read s' _id =
       mkWaste (id (read s0 _id)) (wasteType (read s0 _id))
         (status (read s0 _id)) _to (timestamp (read s0 _id)) ∧
     ∀ j, j ≠ _id → read s' j = read s0 j) ∧
  (∀ _type env s',
     createWaste _type env s = Success s' →
     ∀ j, found (read s j) = true → read s' j = read s j) ∧
  (found (read s k) = true →
   fixed_part (read (run txs s) k) = fixed_part (read s k)).
Proof.
  intros s.
  assert (Hs : consistent s) by apply consistent_run, consistent_init.
  split; [| split; [| split]].
  - intros s0 _id _status env s' H.
    apply updateStatus_inv in H as (_ & _ & ->). split.
    + apply read_insert_eq.
    + intros j Hj. apply read_insert_ne. congruence.
  - intros s0 _id _to env s' H.
    apply transferWaste_inv in H as (_ & ->). split.
    + apply read_insert_eq.
    + intros j Hj. apply read_insert_ne. congruence.
  - intros _type env s' H j Hj.
    apply createWaste_inv in H as [_ ->].
    apply (consistent_found s j Hs) in Hj.
    apply read_insert_ne. lia.
  - apply fixed_part_run, Hs.
Qed.

Lemma mutation_frame_witness :
  let s := run [by_ alice 1000 (CreateWaste "Plastic")] init in
  fixed_part (read (run (tail sample_txs) s) 1) = (1, "Plastic", 1000).
Proof.
  intros s.
  exact (proj2 (proj2 (proj2 (mutation_frame
           [by_ alice 1000 (CreateWaste "Plastic")] (tail sample_txs) 1)))
           eq_refl).
Defined.

(** ** Further properties of the entry points *)

Lemma succeeds_call (tx : Tx) (s : State) :
  succeeds tx s = true ↔ ∃ s', call tx s = Success s'.
Proof.
  unfold succeeds. destruct (call tx s) as [s' | f].
  - split; [eauto | reflexivity].
  - split; [discriminate | intros [s' H]; discriminate H].
Qed.

(** X1. [updateStatus] is accepted exactly when the record exists and the
    caller is its owner; the new status is then what [getWaste] returns, with
    the owner as before. A key without record is refused with
    ["Waste not found"] whoever calls, also a caller who is not the owner:
    the existence test comes first. *)
Theorem updateStatus_outcome (_id : Z) (_status : string) (env : Env)
    (s : State) :
  (succeeds (mkTx env (UpdateStatus _id _status)) s = true ↔
   found (read s _id) = true ∧ owner (read s _id) = msg_sender env) ∧
  (∀ s', updateStatus _id _status env s = Success s' →
         status (getWaste _id s') = _status ∧
         owner (getWaste _id s') = owner (getWaste _id s) ∧
         count s' = count s) ∧
  (found (read s _id) = false →
   updateStatus _id _status env s = Reverted (Error "Waste not found")).
Proof.
  split; [| split].
  - rewrite succeeds_call, found_iff. unfold call; simpl. split.
    + intros [s' H]. apply updateStatus_inv in H as (Hnz & Ho & _). auto.
    + intros [Hnz Ho]. unfold updateStatus, require.
      destruct (Z.eqb_spec (id (read s _id)) 0) as [Hz | _]; [contradiction |].
      simpl. rewrite Ho, Z.eqb_refl. eauto.
  - intros s' H. apply updateStatus_inv in H as (_ & _ & ->).
    unfold getWaste. rewrite read_insert_eq. auto.
  - intros Hf. apply updateStatus_not_found.
    destruct (Z.eq_dec (id (read s _id)) 0) as [Hz | Hnz]; [exact Hz |].
    apply found_iff in Hnz. congruence.
Qed.

Lemma updateStatus_outcome_witness :
  updateStatus 7 "Collected" (mkEnv alice 1000) init
    = Reverted (Error "Waste not found").
Proof.
  exact (proj2 (proj2 (updateStatus_outcome 7 "Collected" (mkEnv alice 1000)
                         init)) eq_refl).
Defined.

(** X2. [transferWaste] is accepted exactly when the caller equals the owner
    read under [_id]; it has no existence test and no test on [_to]. The
    new owner is then what [getWaste] returns, with the status as before. *)
Theorem transferWaste_outcome (_id : Z) (_to : address) (env : Env)
    (s : State) :
  (succeeds (mkTx env (TransferWaste _id _to)) s = true ↔
   owner (read s _id) = msg_sender env) ∧
  (∀ s', transferWaste _id _to env s = Success s' →
         owner (getWaste _id s') = _to ∧
         status (getWaste _id s') = status (getWaste _id s) ∧
         count s' = count s) ∧
  (owner (read s _id) ≠ msg_sender env →
   transferWaste _id _to env s = Reverted (Error "Not owner")).
Proof.
  split; [| split].
  - rewrite succeeds_call. unfold call; simpl. split.
    + intros [s' H]. apply transferWaste_inv in H as (Ho & _). exact Ho.
    + intros Ho. rewrite (transferWaste_owner _id _to env s Ho). eauto.
  - intros s' H. apply transferWaste_inv in H as (_ & ->).
    unfold getWaste. rewrite read_insert_eq. auto.
  - apply transferWaste_not_owner.
Qed.

Lemma transferWaste_outcome_witness :
  transferWaste 1 bob (mkEnv carol 1001)
    (run [by_ alice 1000 (CreateWaste "Plastic")] init)
  = Reverted (Error "Not owner").
Proof.
  refine (proj2 (proj2 (transferWaste_outcome 1 bob (mkEnv carol 1001)
                          (run [by_ alice 1000 (CreateWaste "Plastic")] init)))
            _).
  vm_compute. discriminate.
Defined.

(** X3. In every state reached from the fresh contract [count] stays within
    [0 .. type(uint256).max]; when it has reached the maximum, [createWaste]
    panics with code [0x11] and the state, the log included, is left as it
    was. *)
Theorem createWaste_at_capacity (txs : list Tx) (_type : string) (env : Env)
    (s : State) :
  0 ≤ count (run txs init) ≤ max_uint256 ∧
  (count s = max_uint256 →
   createWaste _type env s = Reverted (Panic 17) ∧
   exec (mkTx env (CreateWaste _type)) s = s).
Proof.
  split.
  - destruct (consistent_run txs init consistent_init) as (Hc & _). exact Hc.
  - intros Hfull.
    assert (E : createWaste _type env s = Reverted (Panic 17))
      by (apply createWaste_overflow; lia).
    split; [exact E |].
    exact (exec_reverted (mkTx env (CreateWaste _type)) s _ E).
Qed.

Lemma createWaste_at_capacity_witness :
  createWaste "Plastic" (mkEnv alice 1000) full = Reverted (Panic 17) ∧
  exec (mkTx (mkEnv alice 1000) (CreateWaste "Plastic")) full = full.
Proof.
  exact (proj2 (createWaste_at_capacity [] "Plastic" (mkEnv alice 1000) full)
           eq_refl).
Defined.

Lemma set_owner_same (w : Waste) : set_owner w (owner w) = w.
Proof. destruct w; reflexivity. Qed.

Lemma set_status_same (w : Waste) : set_status w (status w) = w.
Proof. destruct w; reflexivity. Qed.

(** Writing back what a key already reads as changes no read. *)
Lemma read_insert_same (s : State) (k j : Z) (c : Z) (l : list Event) :
  read (mkState (<[k := read s k]> (wastes s)) c l) j = read s j.
Proof.
  destruct (decide (k = j)) as [-> | Hne].
  - apply read_insert_eq.
  - apply read_insert_ne, Hne.
Qed.

(** X4. Nothing is deduplicated. When the owner submits the status a record
    already has, or transfers a record to himself, the call is accepted,
    every key reads as before, and one more event is appended to the
    log. *)
Theorem resubmission_accepted (_id : Z) (env : Env) (s : State) :
  owner (read s _id) = msg_sender env →
  (found (read s _id) = true →
   ∃ s', updateStatus _id (status (read s _id)) env s = Success s' ∧
         (∀ k, read s' k = read s k) ∧
         logs s' = logs s ++ [StatusUpdated _id (status (read s _id))]) ∧
  (∃ s', transferWaste _id (msg_sender env) env s = Success s' ∧
         (∀ k, read s' k = read s k) ∧
         logs s' =
           logs s ++ [WasteTransferred _id (msg_sender env) (msg_sender env)]).
Proof.
  intros Ho. split.
  - intros Hf. apply found_iff in Hf.
    eexists. split; [| split].
    + unfold updateStatus, require.
      destruct (Z.eqb_spec (id (read s _id)) 0) as [Hz | _]; [contradiction |].
      simpl. rewrite Ho, Z.eqb_refl. reflexivity.
    + intros k. rewrite set_status_same. apply read_insert_same.
    + reflexivity.
  - eexists. split; [| split].
    + apply transferWaste_owner, Ho.
    + intros k. rewrite <- Ho, set_owner_same. apply read_insert_same.
    + reflexivity.
Qed.

Lemma resubmission_accepted_witness :
  let s := run [by_ alice 1000 (CreateWaste "Plastic")] init in
  ∃ s', updateStatus 1 "Generated" (mkEnv alice 1001) s = Success s' ∧
        (∀ k, read s' k = read s k) ∧
        logs s' = logs s ++ [StatusUpdated 1 "Generated"].
Proof.
  intros s.
  exact (proj1 (resubmission_accepted 1 (mkEnv alice 1001) s eq_refl) eq_refl).
Defined.

(** X5. Only its owner changes a record. In a state reached from the fresh
    contract, a transaction of any kind and with any arguments whose sender
    is not the owner of an existing record leaves that record exactly as it
    is. *)
Theorem non_owner_leaves_record (txs : list Tx) (tx : Tx) (k : Z) :
  let s := run txs init in
  found (read s k) = true →
  msg_sender (tx_env tx) ≠ owner (read s k) →
  read (exec tx s) k = read s k.
Proof.
  intros s Hk Hsender.
  assert (Hs : consistent s) by apply consistent_run, consistent_init.
  apply (consistent_found s k Hs) in Hk.
  unfold exec. destruct (call tx s) as [s' | f] eqn:E; [| reflexivity].
  unfold call in E.
  destruct (tx_call tx) as [_type | _id _status | _id _to].
  - apply createWaste_inv in E as [_ ->]. apply read_insert_ne. lia.
  - apply updateStatus_inv in E as (_ & Ho & ->).
    apply read_insert_ne. intros ->. congruence.
  - apply transferWaste_inv in E as (Ho & ->).
    apply read_insert_ne. intros ->. congruence.
Qed.

Lemma non_owner_leaves_record_witness :
  let s := run [by_ alice 1000 (CreateWaste "Plastic")] init in
  read (exec (by_ bob 1001 (TransferWaste 1 bob)) s) 1 = read s 1.
Proof.
  intros s.
  refine (non_owner_leaves_record [by_ alice 1000 (CreateWaste "Plastic")]
            (by_ bob 1001 (TransferWaste 1 bob)) 1 eq_refl _).
  vm_compute. discriminate.
Defined.

Lemma frozen_run (txs : list Tx) (s : State) (k : Z) :
  consistent s → found (read s k) = true → owner (read s k) = 0 →
  Forall nonzero_sender txs → read (run txs s) k = read s k.
Proof.
  revert s. induction txs as [| tx txs IH]; intros s Hs Hk Ho Hall; simpl.
  - reflexivity.
  - inversion Hall as [| ? ? Htx Hrest]; subst.
    assert (Hstep : read (exec tx s) k = read s k).
    { pose proof (proj1 (consistent_found s k Hs) Hk) as Hrange.
      unfold exec. destruct (call tx s) as [s' | f] eqn:E; [| reflexivity].
      unfold call in E. unfold nonzero_sender in Htx.
      destruct (tx_call tx) as [_type | _id _status | _id _to].
      - apply createWaste_inv in E as [_ ->]. apply read_insert_ne. lia.
      - apply updateStatus_inv in E as (_ & Hown & ->).
        apply read_insert_ne. intros ->. congruence.
      - apply transferWaste_inv in E as (Hown & ->).
        apply read_insert_ne. intros ->. congruence. }
    rewrite IH; [exact Hstep | apply consistent_exec, Hs | | | exact Hrest];
      rewrite Hstep; assumption.
Qed.

(** X6. A transfer to [address(0)] is accepted like any other, and it is
    final: once an existing record is owned by [address(0)], no sequence of
    transactions from other senders changes it again. *)
Theorem transfer_to_zero_is_final (txs0 txs : list Tx) (k : Z) (env : Env) :
  let s := run txs0 init in
  found (read s k) = true →
  owner (read s k) = msg_sender env →
  Forall nonzero_sender txs →
  ∃ s', transferWaste k 0 env s = Success s' ∧
        owner (read s' k) = 0 ∧
        read (run txs s') k = read s' k.
Proof.
  intros s Hk Ho Hall.
  assert (Hs : consistent s) by apply consistent_run, consistent_init.
  pose proof (transferWaste_owner k 0 env s Ho) as E.
  eexists. split; [exact E | split].
  - rewrite read_insert_eq. reflexivity.
  - apply frozen_run.
    + exact (consistent_transferWaste k 0 env s _ Hs E).
    + rewrite read_insert_eq. exact Hk.
    + rewrite read_insert_eq. reflexivity.
    + exact Hall.
Qed.

Lemma transfer_to_zero_is_final_witness :
  let s := run [by_ alice 1000 (CreateWaste "Plastic")] init in
  ∃ s', transferWaste 1 0 (mkEnv alice 1001) s = Success s' ∧
        owner (read s' 1) = 0 ∧
        read (run (tail sample_txs) s') 1 = read s' 1.
Proof.
  intros s.
  refine (transfer_to_zero_is_final [by_ alice 1000 (CreateWaste "Plastic")]
            (tail sample_txs) 1 (mkEnv alice 1001) eq_refl eq_refl _).
  repeat constructor; unfold nonzero_sender; simpl; unfold alice, bob; lia.
Defined.

Lemma count_exec_le (tx : Tx) (s : State) : count s ≤ count (exec tx s).
Proof.
  rewrite count_exec. destruct (is_create tx && succeeds tx s); lia.
Qed.

(** X7. Records are never deleted and the counter never goes back: along any
    run that continues a run from the fresh contract, [count] does not
    decrease, it grows by at most the number of transactions, and a record
    that exists keeps existing. *)
Theorem records_persist (txs0 txs : list Tx) (k : Z) :
  let s := run txs0 init in
  count s ≤ count (run txs s) ≤ count s + Z.of_nat (length txs) ∧
  (found (read s k) = true → found (read (run txs s) k) = true).
Proof.
  intros s.
  assert (Hs : consistent s) by apply consistent_run, consistent_init.
  split.
  - clear Hs. generalize s. clear s.
    induction txs as [| tx txs IH]; intros s; simpl length; simpl run.
    + lia.
    + specialize (IH (exec tx s)).
      pose proof (count_exec_le tx s) as Hle.
      pose proof (count_exec tx s) as Heq.
      destruct (is_create tx && succeeds tx s); lia.
  - intros Hk.
    exact (fixed_part_found _ _ (fixed_part_run txs s k Hs Hk) Hk).
Qed.

Lemma records_persist_witness :
  let s := run [by_ alice 1000 (CreateWaste "Plastic")] init in
  found (read (run (tail sample_txs) s) 1) = true.
Proof.
  intros s.
  exact (proj2 (records_persist [by_ alice 1000 (CreateWaste "Plastic")]
                  (tail sample_txs) 1) eq_refl).
Defined.

(** X8. Authorization moves with the record. After the owner has
    transferred a record to [B], calls by [B] are accepted: [updateStatus]
    when the record exists, with the status read back, and [transferWaste]
    onwards. In particular [createWaste("E-Waste")] followed by
    [transferWaste(1, B)] from the creator leaves [B] as the owner that
    [getWaste(1)] returns. *)
Theorem new_owner_is_authorized (_id : Z) (B : address) (envA envB : Env)
    (s s1 : State) :
  transferWaste _id B envA s = Success s1 →
  msg_sender envB = B →
  (found (read s _id) = true →
   ∀ _status, ∃ s2,
     updateStatus _id _status envB s1 = Success s2 ∧
     status (getWaste _id s2) = _status ∧ owner (getWaste _id s2) = B) ∧
  (∀ C, ∃ s2, transferWaste _id C envB s1 = Success s2 ∧
              owner (getWaste _id s2) = C) ∧
  (∀ creator now now',
     owner (getWaste 1
              (run [by_ creator now (CreateWaste "E-Waste");
                    by_ creator now' (TransferWaste 1 B)] init)) = B).
Proof.
  intros Htransfer HB.
  apply transferWaste_inv in Htransfer as (_ & ->).
  split; [| split].
  - intros Hf _status. apply found_iff in Hf. eexists. split; [| split].
    + unfold updateStatus, require. rewrite read_insert_eq. simpl.
      destruct (Z.eqb_spec (id (read s _id)) 0) as [Hz | _]; [contradiction |].
      simpl. rewrite HB, Z.eqb_refl. reflexivity.
    + unfold getWaste. rewrite read_insert_eq. reflexivity.
    + unfold getWaste. rewrite !read_insert_eq. reflexivity.
  - intros C. eexists. split.
    + apply transferWaste_owner. rewrite read_insert_eq. simpl. congruence.
    + unfold getWaste. rewrite read_insert_eq. reflexivity.
  - intros creator now now'. simpl run.
    assert (Hroom : count init < max_uint256)
      by (unfold max_uint256; simpl; lia).
    rewrite (exec_success (by_ creator now (CreateWaste "E-Waste")) init _
               (createWaste_success "E-Waste" (mkEnv creator now) init Hroom)).
    erewrite exec_success.
    2: { unfold call; simpl tx_call; simpl tx_env.
         apply transferWaste_owner. rewrite read_insert_eq. reflexivity. }
    unfold getWaste. rewrite read_insert_eq. reflexivity.
Qed.

Lemma new_owner_is_authorized_witness :
  let s := run [by_ alice 1000 (CreateWaste "Plastic")] init in
  let s1 := exec (by_ alice 1001 (TransferWaste 1 bob)) s in
  ∃ s2, updateStatus 1 "Collected" (mkEnv bob 1002) s1 = Success s2 ∧
        status (getWaste 1 s2) = "Collected" ∧ owner (getWaste 1 s2) = bob.
Proof.
  intros s s1.
  exact (proj1 (new_owner_is_authorized 1 bob (mkEnv alice 1001)
                  (mkEnv bob 1002) s s1 eq_refl eq_refl) eq_refl "Collected").
Defined.

(** X9. Handing a record over and getting it back restores the store: after
    [transferWaste(_id, B)] by the owner [A] and [transferWaste(_id, A)] by
    [B], every key reads as before the two calls and [count] is unchanged;
    the log has grown by the two transfer events. *)
Theorem transfer_round_trip (_id : Z) (envA envB : Env) (s : State) :
  owner (read s _id) = msg_sender envA →
  let s2 :=
    run [mkTx envA (TransferWaste _id (msg_sender envB));
         mkTx envB (TransferWaste _id (msg_sender envA))] s in
  (∀ k, read s2 k = read s k) ∧
  count s2 = count s ∧
  logs s2 =
    logs s ++ [WasteTransferred _id (msg_sender envA) (msg_sender envB);
               WasteTransferred _id (msg_sender envB) (msg_sender envA)].
Proof.
  intros Ho s2. unfold s2. simpl run.
  rewrite (exec_success (mkTx envA (TransferWaste _id (msg_sender envB))) s _
             (transferWaste_owner _id (msg_sender envB) envA s Ho)).
  erewrite exec_success.
  2: { unfold call; simpl tx_call; simpl tx_env.
       apply transferWaste_owner. rewrite read_insert_eq. reflexivity. }
  split; [| split].
  - intros k. rewrite read_insert_eq.
    destruct (decide (_id = k)) as [-> | Hne].
    + rewrite read_insert_eq. unfold set_owner; simpl. rewrite <- Ho.
      destruct (read s k); reflexivity.
    + rewrite read_insert_ne by exact Hne. simpl.
      unfold read; simpl. rewrite lookup_insert_ne by exact Hne. reflexivity.
  - reflexivity.
  - simpl. rewrite <- app_assoc. reflexivity.
Qed.

Lemma transfer_round_trip_witness :
  let s := run [by_ alice 1000 (CreateWaste "Plastic")] init in
  read (run [by_ alice 1001 (TransferWaste 1 bob);
             by_ bob 1002 (TransferWaste 1 alice)] s) 1 = read s 1.
Proof.
  intros s.
  exact (proj1 (transfer_round_trip 1 (mkEnv alice 1001) (mkEnv bob 1002) s
                  eq_refl) 1).
Defined.

(** ** The log as a record of the store *)

Lemma replay_snoc (log : list Event) (e : Event) :
  replay (log ++ [e]) = apply_event (replay log) e.
Proof. unfold replay. rewrite fold_left_app. reflexivity. Qed.

Lemma replay_call (tx : Tx) (s s' : State) :
  (∀ k, replay (logs s) k = (status (read s k), owner (read s k))) →
  call tx s = Success s' →
  ∀ k, replay (logs s') k = (status (read s' k), owner (read s' k)).
Proof.
  intros Hview. unfold call.
  destruct (tx_call tx) as [_type | _id _status | _id _to]; intros H k.
  - apply createWaste_inv in H as [_ ->]. simpl logs.
    rewrite replay_snoc. simpl.
    destruct (Z.eqb_spec k (count s + 1)) as [-> | Hne].
    + rewrite read_insert_eq. reflexivity.
    + rewrite read_insert_ne by congruence. apply Hview.
  - apply updateStatus_inv in H as (_ & _ & ->). simpl logs.
    rewrite replay_snoc. simpl.
    destruct (Z.eqb_spec k _id) as [-> | Hne].
    + rewrite read_insert_eq, Hview. reflexivity.
    + rewrite read_insert_ne by congruence. apply Hview.
  - apply transferWaste_inv in H as (_ & ->). simpl logs.
    rewrite replay_snoc. simpl.
    destruct (Z.eqb_spec k _id) as [-> | Hne].
    + rewrite read_insert_eq, Hview. reflexivity.
    + rewrite read_insert_ne by congruence. apply Hview.
Qed.

Lemma replay_run (txs : list Tx) (s : State) :
  (∀ k, replay (logs s) k = (status (read s k), owner (read s k))) →
  ∀ k, replay (logs (run txs s)) k =
       (status (read (run txs s) k), owner (read (run txs s) k)).
Proof.
  revert s. induction txs as [| tx txs IH]; intros s Hview; simpl.
  - exact Hview.
  - apply IH. unfold exec. destruct (call tx s) as [s' | f] eqn:E.
    + exact (replay_call tx s s' Hview E).
    + exact Hview.
Qed.

(** X10. The events suffice to follow status and owner. Replaying the log
    of any run from the fresh contract (a creation sets ["Generated"] and
    the announced owner, a status event the status, a transfer event the
    owner) gives, for every key, the status and the owner that [getWaste]
    returns. *)
Theorem log_determines_status_and_owner (txs : list Tx) (k : Z) :
  let s := run txs init in
  replay (logs s) k = (status (getWaste k s), owner (getWaste k s)).
Proof.
  intros s. unfold getWaste. apply replay_run.
  intros j. rewrite read_init. reflexivity.
Qed.

Lemma created_ids_app (l l' : list Event) :
  created_ids (l ++ l') = created_ids l ++ created_ids l'.
Proof.
  induction l as [| e l IH]; simpl; [reflexivity |].
  destruct e; simpl; rewrite IH; reflexivity.
Qed.

Lemma created_ids_call (tx : Tx) (s s' : State) :
  0 ≤ count s → created_ids (logs s) = seqZ 1 (count s) →
  call tx s = Success s' → created_ids (logs s') = seqZ 1 (count s').
Proof.
  intros Hc Hids. unfold call.
  destruct (tx_call tx) as [_type | _id _status | _id _to]; intros H.
  - apply createWaste_inv in H as [_ ->]. simpl.
    rewrite created_ids_app, Hids. simpl.
    rewrite (seqZ_app 1 (count s) 1) by lia. f_equal.
    rewrite seqZ_cons, seqZ_nil by lia. f_equal. lia.
  - apply updateStatus_inv in H as (_ & _ & ->). simpl.
    rewrite created_ids_app, Hids. apply app_nil_r.
  - apply transferWaste_inv in H as (_ & ->). simpl.
    rewrite created_ids_app, Hids. apply app_nil_r.
Qed.

Lemma created_ids_run (txs : list Tx) (s : State) :
  consistent s → created_ids (logs s) = seqZ 1 (count s) →
  created_ids (logs (run txs s)) = seqZ 1 (count (run txs s)).
Proof.
  revert s. induction txs as [| tx txs IH]; intros s Hs Hids; simpl.
  - exact Hids.
  - apply IH; [apply consistent_exec, Hs |].
    unfold exec. destruct (call tx s) as [s' | f] eqn:E.
    + destruct Hs as (Hc & _). apply (created_ids_call tx s s'); [lia | | ];
        assumption.
    + exact Hids.
Qed.

(** X11. The [WasteCreated] events of the log of any run from the fresh
    contract carry the ids [1, 2, ..., count], each once and in this order:
    there are as many of them as [count] says, whatever other calls,
    accepted or not, came in between. *)
Theorem created_events_enumerate_ids (txs : list Tx) :
  let s := run txs init in
  created_ids (logs s) = seqZ 1 (count s) ∧
  Z.of_nat (length (created_ids (logs s))) = count s ∧
  NoDup (created_ids (logs s)).
Proof.
  intros s.
  assert (Hids : created_ids (logs s) = seqZ 1 (count s))
    by (apply created_ids_run; [apply consistent_init | reflexivity]).
  destruct (consistent_run txs init consistent_init) as (Hc & _). fold s in Hc.
  split; [exact Hids | split].
  - rewrite Hids, length_seqZ. lia.
  - rewrite Hids. apply NoDup_seqZ.
Qed.

(** ** Calls on different records *)

Lemma exec_other_key (tx : Tx) (s : State) (i k : Z) :
  target tx = Some i → k ≠ i → read (exec tx s) k = read s k.
Proof.
  unfold target, exec, call.
  destruct (tx_call tx) as [_type | _id _status | _id _to];
    [discriminate | |]; intros [= ->] Hne.
  - destruct (updateStatus i _status (tx_env tx) s) as [s' | f] eqn:E;
      [| reflexivity].
    apply updateStatus_inv in E as (_ & _ & ->).
    apply read_insert_ne. congruence.
  - destruct (transferWaste i _to (tx_env tx) s) as [s' | f] eqn:E;
      [| reflexivity].
    apply transferWaste_inv in E as (_ & ->).
    apply read_insert_ne. congruence.
Qed.

Lemma exec_target_count (tx : Tx) (s : State) (i : Z) :
  target tx = Some i → count (exec tx s) = count s.
Proof.
  intros Ht. rewrite count_exec. unfold target, is_create in *.
  destruct (tx_call tx); [discriminate | |]; simpl; lia.
Qed.

(** What a call on [i] does to the record under [i], and whether it is
    accepted, depends on that record only. *)
Lemma exec_same_record (tx : Tx) (s s' : State) (i : Z) :
  target tx = Some i → read s i = read s' i →
  read (exec tx s) i = read (exec tx s') i ∧ succeeds tx s = succeeds tx s'.
Proof.
  unfold target, exec, succeeds, call.
  destruct (tx_call tx) as [_type | _id _status | _id _to];
    [discriminate | |]; intros [= ->] Hsame.
  - unfold updateStatus, require. rewrite <- Hsame.
    destruct (negb (id (read s i) =? 0)); simpl; [| auto].
    destruct (owner (read s i) =? msg_sender (tx_env tx)); simpl; [| auto].
    rewrite !read_insert_eq. auto.
  - unfold transferWaste, require. rewrite <- Hsame.
    destruct (owner (read s i) =? msg_sender (tx_env tx)); simpl; [| auto].
    rewrite !read_insert_eq. auto.
Qed.

(** X22. Calls on different records do not interfere. For an [updateStatus]
    or [transferWaste] on [i] and another on [j] with [i ≠ j], in any state:
    each is accepted or refused independently of whether the other ran
    first, and both orders leave the same record under every key and the
    same [count]. *)
Theorem calls_on_different_records_commute (tx1 tx2 : Tx) (i j : Z)
    (s : State) :
  target tx1 = Some i → target tx2 = Some j → i ≠ j →
  succeeds tx2 (exec tx1 s) = succeeds tx2 s ∧
  succeeds tx1 (exec tx2 s) = succeeds tx1 s ∧
  (∀ k, read (run [tx1; tx2] s) k = read (run [tx2; tx1] s) k) ∧
  count (run [tx1; tx2] s) = count (run [tx2; tx1] s).
Proof.
  intros H1 H2 Hne.
  assert (Hj : read (exec tx1 s) j = read s j)
    by (apply (exec_other_key tx1 s i j H1); congruence).
  assert (Hi : read (exec tx2 s) i = read s i)
    by (apply (exec_other_key tx2 s j i H2); congruence).
  split; [| split; [| split]].
  - exact (proj2 (exec_same_record tx2 _ _ j H2 Hj)).
  - exact (proj2 (exec_same_record tx1 _ _ i H1 Hi)).
  - intros k. simpl run.
    destruct (decide (k = i)) as [-> | Hki].
    + rewrite (exec_other_key tx2 (exec tx1 s) j i H2 Hne).
      symmetry. exact (proj1 (exec_same_record tx1 _ _ i H1 Hi)).
    + destruct (decide (k = j)) as [-> | Hkj].
      * rewrite (exec_other_key tx1 (exec tx2 s) i j H1 Hki).
        exact (proj1 (exec_same_record tx2 _ _ j H2 Hj)).
      * rewrite (exec_other_key tx2 _ j k H2 Hkj),
          (exec_other_key tx1 _ i k H1 Hki),
          (exec_other_key tx1 _ i k H1 Hki),
          (exec_other_key tx2 _ j k H2 Hkj). reflexivity.
  - simpl run.
    rewrite (exec_target_count tx2 _ j H2), (exec_target_count tx1 _ i H1),
      (exec_target_count tx1 _ i H1), (exec_target_count tx2 _ j H2).
    reflexivity.
Qed.

Lemma calls_on_different_records_commute_witness :
  let s := run sample_creates init in
  read (run [by_ alice 1003 (UpdateStatus 1 "Collected");
             by_ bob 1004 (TransferWaste 2 carol)] s) 2 =
  read (run [by_ bob 1004 (TransferWaste 2 carol);
             by_ alice 1003 (UpdateStatus 1 "Collected")] s) 2.
Proof.
  intros s.
  refine (proj1 (proj2 (proj2 (calls_on_different_records_commute
            (by_ alice 1003 (UpdateStatus 1 "Collected"))
            (by_ bob 1004 (TransferWaste 2 carol)) 1 2 s
            eq_refl eq_refl _))) 2).
  lia.
Defined.

End Ledger.

(* ===================================================================== *)
(** * Properties of the client *)
(* ===================================================================== *)

Module Bridge.
Import Client.

Lemma createCalls_app (xs ys : list Step) :
  createCalls (xs ++ ys) = createCalls xs ++ createCalls ys.
Proof.
  induction xs as [| x xs IH]; simpl; [reflexivity |].
  destruct x; simpl; rewrite IH; reflexivity.
Qed.

(** The context's [createWaste] makes no further [createWaste] call. *)
Lemma createCalls_createWaste (w : Web3) (wasteType : string) :
  createCalls (snd (createWaste w wasteType)) = [].
Proof.
  unfold createWaste. destruct (contract w) as [c |]; [| reflexivity].
  destruct (contract_createWaste c wasteType); reflexivity.
Qed.

Lemma handleAutoCreateWaste_unbound (w : Web3) (wasteType : string) :
  falsy (currentAccount w) = true → handleAutoCreateWaste w wasteType = [].
Proof. intros H. unfold handleAutoCreateWaste. rewrite H. reflexivity. Qed.

Lemma createCalls_handleAutoCreateWaste (w : Web3) (wasteType : string) :
  createCalls (handleAutoCreateWaste w wasteType) =
  if falsy (currentAccount w) then [] else [wasteType].
Proof.
  unfold handleAutoCreateWaste.
  destruct (falsy (currentAccount w)); [reflexivity |].
  pose proof (createCalls_createWaste w wasteType) as Hinner.
  destruct (createWaste w wasteType) as [settled steps]; simpl in *.
  rewrite createCalls_app, Hinner. destruct settled; reflexivity.
Qed.

Lemma autoLogEvent_stamp (w : Web3) (now : string) (e : DetectionEvent) :
  autoLogEvent w (stamp now e) = autoLogEvent w e.
Proof. reflexivity. Qed.

Lemma createCalls_flat_map (f : DetectionEvent → list Step)
    (es : list DetectionEvent) :
  createCalls (flat_map f es) = flat_map (λ e, createCalls (f e)) es.
Proof.
  induction es as [| e es IH]; simpl; [reflexivity |].
  rewrite createCalls_app, IH. reflexivity.
Qed.

Lemma recognized_iff (e : DetectionEvent) :
  recognized e = true ↔
  event_type e = "waste_detected" ∨ event_type e = "waste_classified".
Proof.
  unfold recognized. rewrite orb_true_iff, !String.eqb_eq. reflexivity.
Qed.

(** C6, as stated, fails: with the bridge enabled and an account bound, an
    event whose type is ["detected"] is in the recognized set of the
    specification, which asks for one create call with item type
    ["Bottle"]; the handler tests for ["waste_detected"] and
    ["waste_classified"] and makes no call. *)
Lemma bridge_tag_counterexample :
  let w := mkWeb3 "0xA11CE" None in
  let e := mkEvent "detected" (Some "Bottle") "t0" in
  spec_createCalls true w e = ["Bottle"] ∧
  createCalls (bridge true w e) = [] ∧
  createCalls (bridge true w e) ≠ spec_createCalls true w e.
Proof. repeat split. discriminate. Qed.

(** C6, amended. For every detection event the handler makes a
    [createWaste] call if and only if auto-log is enabled, an account is
    bound and the event type is ["waste_detected"] or ["waste_classified"];
    it then makes exactly one call, whose item type is the event's
    [class_name], or ["Unknown Waste"] when [class_name] is missing or
    empty; otherwise the event leaves no step at all. A message with several
    events gives the calls of each event in turn, equal events included. *)
Theorem bridge_create_calls (enabled : bool) (w : Web3) (e : DetectionEvent) :
  createCalls (bridge enabled w e) =
    (if enabled && negb (falsy (currentAccount w)) && recognized e
     then [wasteTypeOf e] else []) ∧
  (enabled && negb (falsy (currentAccount w)) && recognized e = false →
   bridge enabled w e = []) ∧
  (recognized e = true ↔
   event_type e = "waste_detected" ∨ event_type e = "waste_classified") ∧
  (∀ c, class_name e = Some c → c ≠ "" → wasteTypeOf e = c) ∧
  (class_name e = None ∨ class_name e = Some "" →
   wasteTypeOf e = "Unknown Waste") ∧
  (∀ d now es,
     createCalls (snd (onmessage d w now (mkMessage "event" (Some es)))) =
     flat_map (λ e', createCalls (bridge (autoLog d) w e')) es).
Proof.
  split; [| split; [| split; [| split; [| split]]]].
  - unfold bridge, autoLogEvent. destruct enabled; [| reflexivity]. simpl.
    destruct (recognized e).
    + rewrite createCalls_handleAutoCreateWaste.
      destruct (falsy (currentAccount w)); reflexivity.
    + rewrite andb_false_r. reflexivity.
  - unfold bridge, autoLogEvent. destruct enabled; [| reflexivity]. simpl.
    destruct (recognized e).
    + rewrite andb_true_r. intros H. apply negb_false_iff in H.
      apply handleAutoCreateWaste_unbound, H.
    + reflexivity.
  - apply recognized_iff.
  - intros c Hc Hne. unfold wasteTypeOf. rewrite Hc. unfold falsy.
    destruct (String.eqb_spec c ""); [contradiction | reflexivity].
  - intros [Hc | Hc]; unfold wasteTypeOf; rewrite Hc; reflexivity.
  - intros d now es. unfold onmessage. simpl.
    unfold bridge. destruct (autoLog d).
    + rewrite createCalls_flat_map, flat_map_concat_map, map_map.
      rewrite <- flat_map_concat_map. reflexivity.
    + induction es as [| e' es IH]; [reflexivity | exact IH].
Qed.

Lemma bridge_create_calls_witness :
  let w := mkWeb3 "0xA11CE" None in
  let bottle := mkEvent "waste_detected" (Some "Bottle") "t0" in
  bridge true (mkWeb3 "" None) bottle = [] ∧
  createCalls
    (snd (onmessage (mkDashboard true []) w "t1"
            (mkMessage "event" (Some [bottle; bottle])))) =
  ["Bottle"; "Bottle"].
Proof.
  intros w bottle. split.
  - exact (proj1 (proj2 (bridge_create_calls true (mkWeb3 "" None) bottle))
             eq_refl).
  - exact (proj2 (proj2 (proj2 (proj2 (proj2
             (bridge_create_calls true w bottle)))))
             (mkDashboard true []) "t1" [bottle; bottle]).
Defined.

(** C7, as stated, fails: on the initial context, where no account is bound
    and no contract is set, [createWaste("Plastic")] is fulfilled with
    [undefined]; it is not rejected and nothing is logged or sent. *)
Lemma createWaste_unbound_counterexample :
  createWaste initial "Plastic" = (Fulfilled None, []) ∧
  ¬ ∃ error, fst (createWaste initial "Plastic") = Rejected error.
Proof. split; [reflexivity | intros [error H]; discriminate H]. Qed.

(** C7, amended. While no contract is set, as at start and after the wallet
    reports no accounts, the context's [createWaste] returns [undefined]
    without an error and without sending anything; while no account is
    bound the dashboard's two create handlers do nothing; with a contract
    set the call is sent to it. *)
Theorem createWaste_without_contract (w : Web3) (wasteType : string) :
  (contract w = None → createWaste w wasteType = (Fulfilled None, [])) ∧
  createWaste (handleAccountsChanged [] w) wasteType = (Fulfilled None, []) ∧
  (currentAccount w = "" →
   handleCreateMockWaste w = [] ∧ handleAutoCreateWaste w wasteType = []) ∧
  (∀ c, contract w = Some c →
        In (ContractCreateWaste wasteType) (snd (createWaste w wasteType))).
Proof.
  split; [| split; [| split]].
  - intros H. unfold createWaste. rewrite H. reflexivity.
  - reflexivity.
  - intros H. unfold handleCreateMockWaste, handleAutoCreateWaste.
    rewrite H. split; reflexivity.
  - intros c H. unfold createWaste. rewrite H.
    destruct (contract_createWaste c wasteType); simpl; auto.
Qed.

Lemma createWaste_without_contract_witness :
  createWaste initial "Plastic" = (Fulfilled None, []) ∧
  handleAutoCreateWaste initial "Plastic" = [].
Proof.
  pose proof (createWaste_without_contract initial "Plastic")
    as (Hnone & _ & Haccount & _).
  split; [exact (Hnone eq_refl) | exact (proj2 (Haccount eq_refl))].
Defined.

(** ** The activity log and the message stream *)

Lemma onmessage_autoLog (d : Dashboard) (w : Web3) (now : string)
    (data : Message) :
  autoLog (fst (onmessage d w now data)) = autoLog d.
Proof.
  unfold onmessage.
  destruct (String.eqb (message_type data) "event"), (events data);
    reflexivity.
Qed.

Lemma onmessage_disabled (d : Dashboard) (w : Web3) (now : string)
    (data : Message) :
  autoLog d = false → snd (onmessage d w now data) = [].
Proof.
  intros Hoff. unfold onmessage.
  destruct (String.eqb (message_type data) "event"), (events data);
    try reflexivity.
  simpl. rewrite Hoff. reflexivity.
Qed.


Lemma sentTransactions_app (xs ys : list Step) :
  sentTransactions (xs ++ ys) = sentTransactions xs ++ sentTransactions ys.
Proof.
  induction xs as [| x xs IH]; simpl; [reflexivity |].
  destruct x; simpl; rewrite IH; reflexivity.
Qed.

Lemma stampEach_const_aux (now : string)
    (f : nat → DetectionEvent → DetectionEvent) (es : list DetectionEvent) :
  (∀ i e, f i e = stamp now e) → imap f es = map (stamp now) es.
Proof.
  revert f. induction es as [| e es IH]; intros f Hf; simpl; [reflexivity |].
  rewrite Hf. f_equal. apply IH. intros i e'. apply Hf.
Qed.

(** With one instant for all events of a message, [handleFrame] on a parsed
    frame is [onmessage]. *)
Lemma handleFrame_parsed (d : Dashboard) (w : Web3) (now : string)
    (data : Message) :
  handleFrame d w (λ _, now) (Parsed data) = onmessage d w now data.
Proof.
  unfold handleFrame, onmessage, stampEach.
  destruct (String.eqb (message_type data) "event"), (events data) as [es |];
    try reflexivity.
  rewrite (stampEach_const_aux now) by reflexivity. reflexivity.
Qed.

Lemma handleFrame_autoLog (d : Dashboard) (w : Web3) (clock : nat → string)
    (frame : Frame) :
  autoLog (fst (handleFrame d w clock frame)) = autoLog d.
Proof.
  destruct frame as [error | data]; [reflexivity |]. unfold handleFrame.
  destruct (String.eqb (message_type data) "event"), (events data);
    reflexivity.
Qed.

Lemma handleFrame_disabled (d : Dashboard) (w : Web3) (clock : nat → string)
    (frame : Frame) :
  autoLog d = false →
  snd (handleFrame d w clock frame) =
  match frame with
  | Throws error => [ConsoleError ["WS Message Error"; error]]
  | Parsed _ => []
  end.
Proof.
  intros Hoff. destruct frame as [error | data]; [reflexivity |].
  unfold handleFrame.
  destruct (String.eqb (message_type data) "event"), (events data);
    try reflexivity.
  simpl. rewrite Hoff. reflexivity.
Qed.

Lemma receiveFrames_cons (a : Arrival) (fs : list Arrival) (d : Dashboard) :
  receiveFrames (a :: fs) d =
  (fst (receiveFrames fs
          (fst (handleFrame d (arrival_wallet a) (arrival_clock a)
                  (arrival_frame a)))),
   snd (handleFrame d (arrival_wallet a) (arrival_clock a) (arrival_frame a))
   ++ snd (receiveFrames fs
             (fst (handleFrame d (arrival_wallet a) (arrival_clock a)
                     (arrival_frame a))))).
Proof.
  simpl.
  destruct (handleFrame d (arrival_wallet a) (arrival_clock a)
              (arrival_frame a)) as [d1 steps1].
  simpl. destruct (receiveFrames fs d1) as [d2 steps2]. reflexivity.
Qed.

Lemma createCalls_frameErrors (fs : list Arrival) :
  createCalls (frameErrors fs) = [] ∧ sentTransactions (frameErrors fs) = [].
Proof.
  unfold frameErrors.
  induction fs as [| a fs [IHc IHs]]; simpl; [split; reflexivity |].
  rewrite createCalls_app, sentTransactions_app, IHc, IHs.
  destruct (arrival_frame a); split; reflexivity.
Qed.

(** X12. The dashboard as shipped never auto-logs. The handler of the
    WebSocket never changes [autoLog], so it keeps its value over any
    stream of frames; it starts as [false], and then no frame, whatever it
    carries and whatever the wallet state, leads to a [createWaste] call or
    to a transaction: the only steps are the ["WS Message Error"] lines of
    the frames on which the handler throws. *)
Theorem autoLog_never_enabled (fs : list Arrival) (d : Dashboard) :
  autoLog (fst (receiveFrames fs d)) = autoLog d ∧
  (autoLog d = false →
   snd (receiveFrames fs d) = frameErrors fs ∧
   createCalls (snd (receiveFrames fs d)) = [] ∧
   sentTransactions (snd (receiveFrames fs d)) = []) ∧
  snd (receiveFrames fs initialDashboard) = frameErrors fs ∧
  createCalls (snd (receiveFrames fs initialDashboard)) = [] ∧
  sentTransactions (snd (receiveFrames fs initialDashboard)) = [].
Proof.
  assert (Hkeep : ∀ fs' d', autoLog (fst (receiveFrames fs' d')) = autoLog d').
  { induction fs' as [| a fs' IH]; intros d'; [reflexivity |].
    rewrite receiveFrames_cons. simpl fst. rewrite IH.
    apply handleFrame_autoLog. }
  assert (Hoff : ∀ fs' d', autoLog d' = false →
                   snd (receiveFrames fs' d') = frameErrors fs').
  { induction fs' as [| a fs' IH]; intros d' Hd; [reflexivity |].
    rewrite receiveFrames_cons. simpl snd.
    rewrite handleFrame_disabled by exact Hd.
    rewrite IH by (rewrite handleFrame_autoLog; exact Hd).
    reflexivity. }
  assert (Hall : ∀ d', autoLog d' = false →
            snd (receiveFrames fs d') = frameErrors fs ∧
            createCalls (snd (receiveFrames fs d')) = [] ∧
            sentTransactions (snd (receiveFrames fs d')) = []).
  { intros d' Hd. rewrite (Hoff fs d' Hd).
    destruct (createCalls_frameErrors fs) as [Hc Hs]. auto. }
  split; [apply Hkeep | split; [apply Hall |]].
  apply Hall. reflexivity.
Qed.

Lemma autoLog_never_enabled_witness :
  let bottle := mkEvent "waste_detected" (Some "Bottle") "t0" in
  snd (receiveFrames
         [mkArrival (mkWeb3 "0xA11CE" (Some mining)) (λ _, "t1")
            (Parsed (mkMessage "event" (Some [bottle])));
          mkArrival (mkWeb3 "0xA11CE" (Some mining)) (λ _, "t2")
            (Throws "Unexpected token")]
         (mkDashboard false [])) =
  [ConsoleError ["WS Message Error"; "Unexpected token"]].
Proof.
  intros bottle.
  exact (proj1 (proj1 (proj2 (autoLog_never_enabled _ (mkDashboard false [])))
                  eq_refl)).
Defined.




(** ** What reaches the contract *)

Lemma sentTransactions_createWaste (w : Web3) (wasteType : string) :
  sentTransactions (snd (createWaste w wasteType)) =
  match contract w with
  | Some _ => [wasteType]
  | None => []
  end.
Proof.
  unfold createWaste. destruct (contract w) as [c |]; [| reflexivity].
  destruct (contract_createWaste c wasteType); reflexivity.
Qed.

Lemma sentTransactions_handleAutoCreateWaste (w : Web3) (wasteType : string) :
  sentTransactions (handleAutoCreateWaste w wasteType) =
  if falsy (currentAccount w) then []
  else match contract w with
       | Some _ => [wasteType]
       | None => []
       end.
Proof.
  unfold handleAutoCreateWaste.
  destruct (falsy (currentAccount w)); [reflexivity |].
  pose proof (sentTransactions_createWaste w wasteType) as Hinner.
  destruct (createWaste w wasteType) as [settled steps]; simpl in *.
  rewrite sentTransactions_app, Hinner.
  destruct settled; simpl; apply app_nil_r.
Qed.

Lemma initializeContract_account (ethereum : option Ethereum) (p : Provider) :
  currentAccount (web3 (fst (initializeContract ethereum p))) =
  currentAccount (web3 p).
Proof.
  unfold initializeContract. destruct ethereum as [e |]; [| reflexivity].
  destruct (getSigner e); [| reflexivity].
  destruct (getNetwork e); reflexivity.
Qed.

Lemma initializeContract_contract (e : Ethereum) (p : Provider) :
  contract (web3 (fst (initializeContract (Some e) p))) =
  match getSigner e with
  | Resolved c => Some c
  | Thrown _ => contract (web3 p)
  end.
Proof.
  unfold initializeContract. destruct (getSigner e); [| reflexivity].
  destruct (getNetwork e); reflexivity.
Qed.

Lemma sentTransactions_bridge (enabled : bool) (w : Web3)
    (e : DetectionEvent) :
  sentTransactions (bridge enabled w e) =
  if enabled && negb (falsy (currentAccount w)) && recognized e
  then match contract w with
       | Some _ => [wasteTypeOf e]
       | None => []
       end
  else [].
Proof.
  unfold bridge, autoLogEvent. destruct enabled; [| reflexivity]. simpl.
  destruct (recognized e).
  - rewrite sentTransactions_handleAutoCreateWaste.
    destruct (falsy (currentAccount w)); reflexivity.
  - rewrite andb_false_r. reflexivity.
Qed.

Lemma createCalls_bridge (enabled : bool) (w : Web3) (e : DetectionEvent) :
  createCalls (bridge enabled w e) =
  if enabled && negb (falsy (currentAccount w)) && recognized e
  then [wasteTypeOf e] else [].
Proof.
  unfold bridge, autoLogEvent. destruct enabled; [| reflexivity]. simpl.
  destruct (recognized e).
  - rewrite createCalls_handleAutoCreateWaste.
    destruct (falsy (currentAccount w)); reflexivity.
  - rewrite andb_false_r. reflexivity.
Qed.

Lemma depsChanged_account (auto : bool) (w w' : Web3) :
  depsChanged (mkRender auto w) (mkRender auto w') =
  negb (String.eqb (currentAccount w) (currentAccount w')).
Proof. unfold depsChanged. simpl. rewrite eqb_reflx. reflexivity. Qed.

Lemma connectWallet_account (eth : Ethereum) (p : Provider)
    (accounts : list string) :
  eth_requestAccounts eth = Resolved accounts →
  currentAccount (web3 (fst (connectWallet (Some eth) p))) =
  firstAccount accounts.
Proof.
  intros H. unfold connectWallet. rewrite H.
  rewrite initializeContract_account. reflexivity.
Qed.

(** X14. The handler that turns events into transactions is the one the
    effect installed, and it is installed again only when [autoLog] or
    [currentAccount] changes: it works with the [createWaste], and so with
    the contract, of the render it comes from. A detection event leads to a
    transaction only if in that render auto-log is enabled, an account is
    bound, the event type is recognized and a contract is set; it is then
    exactly one transaction, with the item type of the [createWaste] call
    made. With an account but no contract in that render, the
    [createWaste] call is made and nothing is sent. That is the state of
    the handler after a connect from a state without contract and with
    another account: the account is bound in one render, the contract
    arrives in a later one, and the installed handler sends nothing for any
    event, whatever the signer request gave. It sends again once the
    account has changed in a render that has the contract. *)
Theorem bridge_transactions (handler : Render) (e : DetectionEvent) :
  sentTransactions (liveBridge handler e) =
    (if shown_autoLog handler
        && negb (falsy (currentAccount (shown_web3 handler)))
        && recognized e
     then match contract (shown_web3 handler) with
          | Some _ => [wasteTypeOf e]
          | None => []
          end
     else []) ∧
  (shown_autoLog handler = true →
   falsy (currentAccount (shown_web3 handler)) = false →
   recognized e = true →
   contract (shown_web3 handler) = None →
   createCalls (liveBridge handler e) = [wasteTypeOf e] ∧
   sentTransactions (liveBridge handler e) = []) ∧
  (∀ previous r, depsChanged previous r = false →
                 installed handler previous [r] = handler) ∧
  (∀ eth p accounts auto,
     eth_requestAccounts eth = Resolved accounts →
     currentAccount (web3 p) ≠ firstAccount accounts →
     contract (web3 p) = None →
     let before := mkRender auto (web3 p) in
     let bound :=
       mkRender auto (web3 (setCurrentAccount (firstAccount accounts) p)) in
     let settled := mkRender auto (web3 (fst (connectWallet (Some eth) p))) in
     mounted before [bound; settled] = bound ∧
     sentTransactions (liveBridge (mounted before [bound; settled]) e) = [] ∧
     ∀ account c,
       getSigner eth = Resolved c →
       account ≠ firstAccount accounts →
       let switched :=
         mkRender auto (handleAccountsChanged [account] (shown_web3 settled)) in
       mounted before [bound; settled; switched] = switched ∧
       (auto = true → falsy account = false → recognized e = true →
        sentTransactions
          (liveBridge (mounted before [bound; settled; switched]) e) =
        [wasteTypeOf e])).
Proof.
  split; [apply sentTransactions_bridge | split; [| split]].
  - intros Hauto Hbound Hrec Hnone. unfold liveBridge.
    rewrite createCalls_bridge, sentTransactions_bridge.
    rewrite Hauto, Hbound, Hrec, Hnone. split; reflexivity.
  - intros previous r Hsame. simpl. rewrite Hsame. reflexivity.
  - intros eth p accounts auto Hreq Hnew Hnone before bound settled.
    assert (Hab : depsChanged before bound = true).
    { unfold before, bound. rewrite depsChanged_account. simpl.
      destruct (String.eqb_spec (currentAccount (web3 p))
                  (firstAccount accounts)); [contradiction | reflexivity]. }
    assert (Hbs : depsChanged bound settled = false).
    { unfold bound, settled. rewrite depsChanged_account.
      rewrite (connectWallet_account eth p accounts Hreq). simpl.
      rewrite String.eqb_refl. reflexivity. }
    assert (Hmount : mounted before [bound; settled] = bound).
    { unfold mounted. simpl. rewrite Hab, Hbs. reflexivity. }
    split; [exact Hmount | split].
    + rewrite Hmount. unfold liveBridge. rewrite sentTransactions_bridge.
      unfold bound. simpl. rewrite Hnone.
      destruct (auto && negb (falsy (firstAccount accounts)) && recognized e);
        reflexivity.
    + intros account c Hsigner Hother switched.
      assert (Hss : depsChanged settled switched = true).
      { unfold settled, switched. rewrite depsChanged_account.
        rewrite (connectWallet_account eth p accounts Hreq). simpl.
        destruct (String.eqb_spec (firstAccount accounts) account);
          [congruence | reflexivity]. }
      assert (Hmount' : mounted before [bound; settled; switched] = switched).
      { unfold mounted. simpl. rewrite Hab, Hbs, Hss. reflexivity. }
      split; [exact Hmount' |].
      assert (Hc : contract (web3 (fst (connectWallet (Some eth) p))) = Some c).
      { unfold connectWallet. rewrite Hreq.
        rewrite initializeContract_contract, Hsigner. reflexivity. }
      intros Hauto Hacc Hrec. rewrite Hmount'. unfold liveBridge.
      rewrite sentTransactions_bridge.
      unfold switched, settled, handleAccountsChanged.
      cbn [shown_autoLog shown_web3 currentAccount contract].
      rewrite Hc, Hauto, Hacc, Hrec. reflexivity.
Qed.

Lemma bridge_transactions_witness :
  let bottle := mkEvent "waste_detected" (Some "Bottle") "t0" in
  let before := mkRender true initial in
  let bound :=
    mkRender true (web3 (setCurrentAccount "0xA11CE" initialProvider)) in
  let settled :=
    mkRender true (web3 (fst (connectWallet (Some metamask) initialProvider))) in
  contract (shown_web3 settled) = Some mining ∧
  createCalls (liveBridge (mounted before [bound; settled]) bottle)
    = ["Bottle"] ∧
  sentTransactions (liveBridge (mounted before [bound; settled]) bottle) = [].
Proof.
  intros bottle before bound settled.
  destruct (bridge_transactions (mounted before [bound; settled]) bottle)
    as (_ & Hcall & _ & Hconnect).
  split; [reflexivity | split].
  - exact (proj1 (Hcall eq_refl eq_refl eq_refl eq_refl)).
  - refine (proj1 (proj2 (Hconnect metamask initialProvider ["0xA11CE"] true
                            eq_refl _ eq_refl))).
    discriminate.
Defined.

(** X15. [handleCreateMockWaste] with an account bound shows exactly one
    alert. It is the success alert whenever [createWaste] does not reject:
    when the transaction was mined, and also when no contract is set and
    nothing was sent at all. Without an account it shows none. *)
Theorem mock_create_alerts (w : Web3) :
  (falsy (currentAccount w) = true → handleCreateMockWaste w = []) ∧
  (falsy (currentAccount w) = false →
   (contract w = None →
    alerts (handleCreateMockWaste w) = ["Waste created on Blockchain!"] ∧
    sentTransactions (handleCreateMockWaste w) = []) ∧
   (∀ c, contract w = Some c →
      sentTransactions (handleCreateMockWaste w) = ["Plastic Bottle"] ∧
      alerts (handleCreateMockWaste w) =
        match contract_createWaste c "Plastic Bottle" with
        | Mined _ => ["Waste created on Blockchain!"]
        | Failed _ => ["Error creating waste"]
        end)).
Proof.
  split.
  - intros H. unfold handleCreateMockWaste. rewrite H. reflexivity.
  - intros H. split.
    + intros Hnone. unfold handleCreateMockWaste, createWaste.
      rewrite H, Hnone. split; reflexivity.
    + intros c Hc. unfold handleCreateMockWaste, createWaste.
      rewrite H, Hc.
      destruct (contract_createWaste c "Plastic Bottle"); split; reflexivity.
Qed.

Lemma mock_create_alerts_witness :
  alerts (handleCreateMockWaste (mkWeb3 "0xA11CE" None)) =
    ["Waste created on Blockchain!"] ∧
  sentTransactions (handleCreateMockWaste (mkWeb3 "0xA11CE" None)) = [].
Proof.
  exact (proj1 (proj2 (mock_create_alerts (mkWeb3 "0xA11CE" None)) eq_refl)
           eq_refl).
Defined.

(** ** The wallet binding *)

Lemma accountsChanged_snoc (notes : list (list string))
    (accounts : list string) (w : Web3) :
  accountsChanged (notes ++ [accounts]) w =
  handleAccountsChanged accounts (accountsChanged notes w).
Proof. unfold accountsChanged. rewrite fold_left_app. reflexivity. Qed.

Lemma accountsChanged_contract (notes : list (list string)) (w : Web3) :
  contract (accountsChanged notes w) =
  if existsb noAccounts notes then None else contract w.
Proof.
  induction notes as [| accounts notes IH] using rev_ind; [reflexivity |].
  rewrite accountsChanged_snoc, existsb_app. simpl.
  destruct accounts as [| account rest]; simpl.
  - rewrite orb_true_r. reflexivity.
  - rewrite !orb_false_r. exact IH.
Qed.

(** X16. Account notifications never set a contract. After any sequence of
    [accountsChanged] notifications the contract object is the one from
    before, whichever accounts were reported, or none at all as soon as one
    notification reported no account; and then [createWaste] sends nothing,
    even though later notifications have bound an account again. The account
    is the first one of the last notification. *)
Theorem account_notifications (notes : list (list string)) (w : Web3)
    (wasteType : string) :
  contract (accountsChanged notes w) =
    (if existsb noAccounts notes then None else contract w) ∧
  (existsb noAccounts notes = true →
   createWaste (accountsChanged notes w) wasteType = (Fulfilled None, [])) ∧
  (existsb noAccounts notes = false →
   createWaste (accountsChanged notes w) wasteType = createWaste w wasteType) ∧
  (∀ accounts, currentAccount (accountsChanged (notes ++ [accounts]) w) =
               firstAccount accounts).
Proof.
  pose proof (accountsChanged_contract notes w) as Hc.
  split; [exact Hc | split; [| split]].
  - intros H. rewrite H in Hc. unfold createWaste. rewrite Hc. reflexivity.
  - intros H. rewrite H in Hc. unfold createWaste. rewrite Hc. reflexivity.
  - intros accounts. rewrite accountsChanged_snoc.
    destruct accounts; reflexivity.
Qed.

Lemma account_notifications_witness :
  let w := accountsChanged [["0xA11CE"]; []; ["0xB0B"]]
             (mkWeb3 "0xA11CE" (Some mining)) in
  currentAccount w = "0xB0B" ∧
  createWaste w "Plastic" = (Fulfilled None, []).
Proof.
  intros w. split; [reflexivity |].
  exact (proj1 (proj2 (account_notifications [["0xA11CE"]; []; ["0xB0B"]]
                         (mkWeb3 "0xA11CE" (Some mining)) "Plastic")) eq_refl).
Defined.

(** X17. [connectWallet] changes nothing when there is no wallet or the
    account request is refused. When the request is answered, the first
    account is bound whether or not the contract can be set up after it: the
    contract object is replaced exactly when a signer is obtained, and
    [chainId] is stored only when the network is obtained as well. So after
    a connect from the initial state whose signer request fails, an account
    is bound without a contract, and the dashboard's mock create reports
    success although nothing is sent; after one whose signer request
    succeeds, the mock create sends its transaction. *)
Theorem connectWallet_binding (e : Ethereum) (p : Provider)
    (accounts : list string) :
  fst (connectWallet None p) = p ∧
  (∀ error, eth_requestAccounts e = Thrown error →
            fst (connectWallet (Some e) p) = p) ∧
  (eth_requestAccounts e = Resolved accounts →
   let p' := fst (connectWallet (Some e) p) in
   currentAccount (web3 p') = firstAccount accounts ∧
   contract (web3 p') =
     match getSigner e with
     | Resolved c => Some c
     | Thrown _ => contract (web3 p)
     end ∧
   chainId p' =
     match getSigner e, getNetwork e with
     | Resolved _, Resolved n => Some n
     | _, _ => chainId p
     end ∧
   (falsy (firstAccount accounts) = false →
    (∀ error, getSigner e = Thrown error → contract (web3 p) = None →
       alerts (handleCreateMockWaste (web3 p')) =
         ["Waste created on Blockchain!"] ∧
       sentTransactions (handleCreateMockWaste (web3 p')) = []) ∧
    (∀ c, getSigner e = Resolved c →
       sentTransactions (handleCreateMockWaste (web3 p')) =
         ["Plastic Bottle"]))).
Proof.
  split; [reflexivity | split].
  - intros error H. unfold connectWallet. rewrite H. reflexivity.
  - intros H p'.
    assert (Hp' : p' = fst (initializeContract (Some e)
                              (setCurrentAccount (firstAccount accounts) p))).
    { unfold p', connectWallet. rewrite H. reflexivity. }
    assert (Haccount : currentAccount (web3 p') = firstAccount accounts).
    { rewrite Hp', initializeContract_account. reflexivity. }
    assert (Hcontract : contract (web3 p') =
              match getSigner e with
              | Resolved c => Some c
              | Thrown _ => contract (web3 p)
              end).
    { rewrite Hp', initializeContract_contract. reflexivity. }
    split; [exact Haccount | split; [exact Hcontract | split]].
    + rewrite Hp'. unfold initializeContract.
      destruct (getSigner e); [| reflexivity].
      destruct (getNetwork e); reflexivity.
    + intros Hbound. rewrite <- Haccount in Hbound. split.
      * intros error Hsigner Hold. rewrite Hsigner, Hold in Hcontract.
        unfold handleCreateMockWaste, createWaste.
        rewrite Hbound, Hcontract. split; reflexivity.
      * intros c Hsigner. rewrite Hsigner in Hcontract.
        unfold handleCreateMockWaste, createWaste.
        rewrite Hbound, Hcontract.
        destruct (contract_createWaste c "Plastic Bottle"); reflexivity.
Qed.

Lemma connectWallet_binding_witness :
  let p' := fst (connectWallet (Some locked) initialProvider) in
  currentAccount (web3 p') = "0xA11CE" ∧
  alerts (handleCreateMockWaste (web3 p')) = ["Waste created on Blockchain!"] ∧
  sentTransactions (handleCreateMockWaste (web3 p')) = [].
Proof.
  intros p'.
  destruct (connectWallet_binding locked initialProvider ["0xA11CE"])
    as (_ & _ & H).
  destruct (H eq_refl) as (Haccount & _ & _ & Hmock).
  destruct (proj1 (Hmock eq_refl) "unknown account" eq_refl eq_refl)
    as [Halert Hsent].
  split; [exact Haccount | split; [exact Halert | exact Hsent]].
Defined.

(** X18. [checkWalletIsConnected], the silent restore on mount, never shows
    an alert and changes nothing unless the wallet lists an account; when
    it lists the accounts a connect request would return, it leaves the same
    state as [connectWallet]. The two differ on an empty list: the restore
    does nothing, the connect clears the account and still sets up the
    contract. *)
Theorem checkWalletIsConnected_restore (ethereum : option Ethereum)
    (e : Ethereum) (p : Provider) :
  alerts (snd (checkWalletIsConnected ethereum p)) = [] ∧
  fst (checkWalletIsConnected None p) = p ∧
  ((∃ error, eth_accounts e = Thrown error) ∨ eth_accounts e = Resolved [] →
   fst (checkWalletIsConnected (Some e) p) = p) ∧
  (∀ account rest,
     eth_accounts e = Resolved (account :: rest) →
     eth_requestAccounts e = Resolved (account :: rest) →
     checkWalletIsConnected (Some e) p = connectWallet (Some e) p) ∧
  (eth_requestAccounts e = Resolved [] →
   falsy (currentAccount (web3 (fst (connectWallet (Some e) p)))) = true ∧
   ∀ c, getSigner e = Resolved c →
        contract (web3 (fst (connectWallet (Some e) p))) = Some c).
Proof.
  split; [| split; [reflexivity | split; [| split]]].
  - unfold checkWalletIsConnected, initializeContract.
    destruct ethereum as [e0 |]; [| reflexivity].
    destruct (eth_accounts e0) as [[| account rest] | error]; try reflexivity.
    destruct (getSigner e0); [| reflexivity].
    destruct (getNetwork e0); reflexivity.
  - intros [[error H] | H]; unfold checkWalletIsConnected; rewrite H;
      reflexivity.
  - intros account rest Hcheck Hconnect.
    unfold checkWalletIsConnected, connectWallet.
    rewrite Hcheck, Hconnect. reflexivity.
  - intros H. unfold connectWallet. rewrite H. split.
    + rewrite initializeContract_account. reflexivity.
    + intros c Hc. rewrite initializeContract_contract, Hc. reflexivity.
Qed.

Lemma checkWalletIsConnected_restore_witness :
  checkWalletIsConnected (Some metamask) initialProvider =
  connectWallet (Some metamask) initialProvider.
Proof.
  exact (proj1 (proj2 (proj2 (proj2
           (checkWalletIsConnected_restore None metamask initialProvider))))
           "0xA11CE" [] eq_refl eq_refl).
Defined.

End Bridge.

(* ===================================================================== *)
(** * Properties of the analytics page *)
(* ===================================================================== *)

Module Polling.
Import Client Analytics.

Section Fetching.

Context {Json : Type}.
Implicit Types (fetch : string → Reply (Response Json)) (st : Page Json).

(** X19. A poll always ends the loading state, whether it succeeded or not,
    and it replaces [summary] and [timeline] together or leaves both as
    they were: this holds for [fetchData] and for [safeFetchData]. *)
Theorem poll_is_all_or_nothing fetch st :
  let after_fetch := fst (fetchData fetch st) in
  let after_safe := fst (safeFetchData fetch st) in
  loading after_fetch = false ∧ loading after_safe = false ∧
  (after_fetch = loaded st ∨
   ∃ a b, after_fetch = mkPage (Some a) (Some b) false) ∧
  (after_safe = loaded st ∨
   ∃ a b, after_safe = mkPage (Some a) (Some b) false).
Proof.
  unfold fetchData, safeFetchData. simpl.
  destruct (fetch spacedSummaryUrl) as [r1 |], (fetch summaryUrl) as [r1' |],
    (fetch timelineUrl) as [r2 |]; simpl;
    try destruct (ok r1 && ok r2); simpl;
    try destruct (json r1) as [a |]; try destruct (json r1') as [a' |];
    try destruct (json r2) as [b |]; simpl;
    repeat split; eauto.
Qed.

(** X20. [fetchData] stores nothing unless both responses are [ok];
    [safeFetchData] does not look at [ok] and stores the parsed bodies of
    failed responses as [summary] and [timeline]. [fetchData] starts both
    requests in any case, [safeFetchData] asks for the timeline only after
    the summary request was answered. *)
Theorem ok_is_checked_by_fetchData_only fetch st :
  (∀ r1 r2, fetch spacedSummaryUrl = Resolved r1 →
            fetch timelineUrl = Resolved r2 →
            ok r1 && ok r2 = false →
            fetchData fetch st =
              (loaded st, [Request spacedSummaryUrl; Request timelineUrl])) ∧
  (∀ r1 r2 a b, fetch summaryUrl = Resolved r1 →
                fetch timelineUrl = Resolved r2 →
                json r1 = Resolved a → json r2 = Resolved b →
                fst (safeFetchData fetch st) =
                  mkPage (Some a) (Some b) false) ∧
  (∀ error, fetch summaryUrl = Thrown error →
            snd (safeFetchData fetch st) = [Request summaryUrl; LogFailure]) ∧
  (∃ rest, snd (fetchData fetch st) =
             Request spacedSummaryUrl :: Request timelineUrl :: rest).
Proof.
  split; [| split; [| split]].
  - intros r1 r2 H1 H2 Hok. unfold fetchData. rewrite H1, H2, Hok. reflexivity.
  - intros r1 r2 a b H1 H2 Ha Hb. unfold safeFetchData.
    rewrite H1, H2, Ha, Hb. reflexivity.
  - intros error H. unfold safeFetchData. rewrite H. reflexivity.
  - unfold fetchData.
    destruct (fetch spacedSummaryUrl) as [r1 |], (fetch timelineUrl) as [r2 |];
      simpl; eauto.
    destruct (ok r1 && ok r2); simpl; eauto.
    destruct (json r1), (json r2); simpl; eauto.
Qed.

End Fetching.

Lemma ok_is_checked_by_fetchData_only_witness :
  fst (safeFetchData failingServer initialPage) =
    mkPage (Some "{error}") (Some "{error}") false ∧
  fst (fetchData failingServer initialPage) = mkPage None None false.
Proof.
  destruct (ok_is_checked_by_fetchData_only failingServer initialPage)
    as (Hfetch & Hsafe & _).
  split.
  - exact (Hsafe _ _ "{error}" "{error}" eq_refl eq_refl eq_refl eq_refl).
  - exact (f_equal fst (Hfetch _ _ eq_refl eq_refl eq_refl)).
Defined.

Lemma cellColor_defined (index : nat) : is_Some (cellColor index).
Proof.
  unfold cellColor. apply lookup_lt_is_Some_2.
  apply Nat.mod_upper_bound. discriminate.
Qed.

(** X21. Every pie cell gets a colour: [COLORS[index % COLORS.length]] is
    one of the five entries of [COLORS] for every index, and the colours
    repeat with period five. *)
Theorem cellColor_cycles (index : nat) :
  (∃ colour, cellColor index = Some colour ∧ colour ∈ COLORS) ∧
  cellColor (index + 5) = cellColor index.
Proof.
  split.
  - destruct (cellColor_defined index) as [colour H].
    exists colour. split; [exact H |].
    unfold cellColor in H. apply (list_elem_of_lookup_2 _ _ _ H).
  - unfold cellColor. f_equal.
    change (length COLORS) with 5%nat.
    replace (index + 5)%nat with (index + 1 * 5)%nat by lia.
    apply Nat.Div0.mod_add.
Qed.

End Polling.
